(** * dicom.py: the binary dataset decoder

    A shallow embedding of [dicom.py] (element tags, the data element
    classes, [read_dataset_item], [read_dataset], [load] and
    [DICOM.find_elements_by_tag]) together with the properties of the
    decoder.

    Modelling conventions.
    - A Python [int] obtained from [int.from_bytes] is a natural number [N].
    - [bytes] is [list byte]; a Python [str] is the list of its code points.
    - The open binary file [f] is a buffer with a read position; [f.read(n)]
      returns at most [n] bytes and fewer at the end of the buffer, as
      [io.BufferedIOBase.read] does.
    - Exceptions are the [Raise] results of an error monad.
    - The interpreter's resource limits (call stack depth, memory) are not
      part of the model, and [open] either finds no file or gives the
      bytes of the file. *)

From Stdlib Require Import List NArith Arith Bool Lia String Ascii.
From Stdlib Require Strings.Byte HexString DecimalString DecimalN.
Import ListNotations.

Definition byte : Set := Byte.byte.

(* ================================================================== *)
(** ** Byte sequences *)

Section Slices.
Context {A : Type}.

(** [b[:n]] for a non-negative [n]. *)
Fixpoint take (n : N) (l : list A) : list A :=
  match l with
  | [] => []
  | x :: r => if (n =? 0)%N then [] else x :: take (N.pred n) r
  end.

(** [b[n:]] for a non-negative [n]. *)
Fixpoint drop (n : N) (l : list A) : list A :=
  match l with
  | [] => []
  | x :: r => if (n =? 0)%N then l else drop (N.pred n) r
  end.

End Slices.

(** [int.from_bytes(b, byteorder='little')]; the empty sequence gives 0. *)
Fixpoint int_from_bytes_little (b : list byte) : N :=
  match b with
  | [] => 0
  | x :: r => Byte.to_N x + 256 * int_from_bytes_little r
  end%N.

(** A Python [str]: its code points. *)
Definition str := list N.

Definition str_of_string (s : string) : str :=
  map N_of_ascii (list_ascii_of_string s).

Definition str_eqb (a b : str) : bool :=
  if list_eq_dec N.eq_dec a b then true else false.

(** [x in l] for a list of strings. *)
Definition str_in (x : str) (l : list str) : bool := existsb (str_eqb x) l.

Definition in_range (lo hi : N) (b : byte) : bool :=
  ((lo <=? Byte.to_N b) && (Byte.to_N b <=? hi))%N.

(** The payload bits of a continuation byte. *)
Definition cont_bits (b : byte) : N := N.land (Byte.to_N b) 0x3f.

(** [str(b, encoding='utf-8')] with the default strict error handling:
    [None] stands for [UnicodeDecodeError]. Overlong forms, surrogates,
    code points above U+10FFFF and truncated sequences are rejected. *)
Fixpoint utf8_decode (b : list byte) : option str :=
  match b with
  | [] => Some []
  | b0 :: r0 =>
    let c0 := Byte.to_N b0 in
    if (c0 <? 0x80)%N then
      option_map (cons c0) (utf8_decode r0)
    else if in_range 0xc2 0xdf b0 then
      match r0 with
      | b1 :: r1 =>
        if in_range 0x80 0xbf b1 then
          option_map
            (cons (N.shiftl (N.land c0 0x1f) 6 + cont_bits b1)%N)
            (utf8_decode r1)
        else None
      | _ => None
      end
    else if in_range 0xe0 0xef b0 then
      match r0 with
      | b1 :: b2 :: r2 =>
        let lo := if (c0 =? 0xe0)%N then 0xa0%N else 0x80%N in
        let hi := if (c0 =? 0xed)%N then 0x9f%N else 0xbf%N in
        if in_range lo hi b1 && in_range 0x80 0xbf b2 then
          option_map
            (cons (N.shiftl (N.land c0 0x0f) 12
                   + N.shiftl (cont_bits b1) 6 + cont_bits b2)%N)
            (utf8_decode r2)
        else None
      | _ => None
      end
    else if in_range 0xf0 0xf4 b0 then
      match r0 with
      | b1 :: b2 :: b3 :: r3 =>
        let lo := if (c0 =? 0xf0)%N then 0x90%N else 0x80%N in
        let hi := if (c0 =? 0xf4)%N then 0x8f%N else 0xbf%N in
        if in_range lo hi b1 && in_range 0x80 0xbf b2
           && in_range 0x80 0xbf b3 then
          option_map
            (cons (N.shiftl (N.land c0 0x07) 18
                   + N.shiftl (cont_bits b1) 12
                   + N.shiftl (cont_bits b2) 6 + cont_bits b3)%N)
            (utf8_decode r3)
        else None
      | _ => None
      end
    else None
  end.

(* ================================================================== *)
(** ** Module constants *)

Definition UNDEFINED_LENGTH : N := 0xffffffff.

Definition VR_EXPLICIT_16BIT_VLF : list str :=
  map str_of_string
    ["AE"; "AS"; "AT"; "CS"; "DA"; "DS"; "DT"; "FL"; "FD"; "IS"; "LO";
     "LT"; "PN"; "SH"; "SL"; "SS"; "ST"; "TM"; "UI"; "UL"; "US"]%string.

(* ================================================================== *)
(** ** Element tags and data elements *)

Record ElementTag := Tag { group : N; elem : N }.

(** [ElementTag.__eq__] on two tags. *)
Definition ElementTag_eq (a b : ElementTag) : bool :=
  if (negb (group a =? group b) || negb (elem a =? elem b))%N
  then false else true.

(** The four classes: [DataElement] and its three subclasses. *)
Inductive element_class :=
| DataElementClass
| ItemDataElementClass
| ItemDelimitationElementClass
| SequenceDelimitationElementClass.

(** An instance of [DataElement] or of one of its subclasses. [None] in
    [val_repr], [val_length] and [val_data] is Python's [None]. *)
#[warnings="-register-all"] Inductive DataElement := Element {
  class_of : element_class;
  tag : ElementTag;
  val_repr : option str;
  val_length : option N;
  val_data : option (list byte);
  children : list DataElement
}.

(** [val_length if val_length != UNDEFINED_LENGTH else None] *)
Definition stored_length (val_length : N) : option N :=
  if negb (val_length =? UNDEFINED_LENGTH)%N then Some val_length else None.

(** [DataElement.__init__] *)
Definition DataElement_init (tag : ElementTag) (val_repr : str)
    (val_length : N) (val_data : option (list byte))
    (children : list DataElement) : DataElement :=
  Element DataElementClass tag (Some val_repr) (stored_length val_length)
          val_data children.

(** [ItemDataElement.__init__] *)
Definition ItemDataElement_init (val_length : N)
    (val_data : option (list byte)) (children : list DataElement) :=
  Element ItemDataElementClass (Tag 0xfffe 0xe000) None
          (stored_length val_length) val_data children.

(** [ItemDelimitationElement.__init__] *)
Definition ItemDelimitationElement_init (val_length : N)
    (val_data : option (list byte)) (children : list DataElement) :=
  Element ItemDelimitationElementClass (Tag 0xfffe 0xe00d) None
          (stored_length val_length) val_data children.

(** [SequenceDelimitationElement.__init__] *)
Definition SequenceDelimitationElement_init (val_length : N)
    (val_data : option (list byte)) (children : list DataElement) :=
  Element SequenceDelimitationElementClass (Tag 0xfffe 0xe0dd) None
          (stored_length val_length) val_data children.

(** [DataElement.is_length_undefined] *)
Definition is_length_undefined (self : DataElement) : bool :=
  match val_length self with
  | None => true
  | Some _ => false
  end.

(** [DataElement.add_children]: [self.children += children]. The element
    is mutated in place; the model returns the element after the update,
    and callers use that value wherever the object is reachable. *)
Definition add_children (self : DataElement) (cs : list DataElement)
  : DataElement :=
  Element (class_of self) (tag self) (val_repr self) (val_length self)
          (val_data self) (children self ++ cs).

(** [isinstance(item, SequenceDelimitationElement) or
     isinstance(item, ItemDelimitationElement)] *)
Definition is_delimiter (item : DataElement) : bool :=
  match class_of item with
  | SequenceDelimitationElementClass | ItemDelimitationElementClass => true
  | _ => false
  end.

(* ================================================================== *)
(** ** The open file and the reader monad *)

Inductive exn :=
| UnicodeDecodeError
| InvalidDICOMFileException (msg : string)
| FileNotFoundError.

Inductive result (A : Type) :=
| Ok (a : A)
| Raise (e : exn).
Arguments Ok {A} a.
Arguments Raise {A} e.

(** A binary file opened for reading: its bytes and the read position. *)
Record file := File { content : list byte; pos : nat }.

(** The bytes not yet read. *)
Definition remaining (f : file) : list byte := skipn (pos f) (content f).

(** The file after a read of (at most) [n] bytes. *)
Definition advance (n : N) (f : file) : file :=
  File (content f) (pos f + List.length (take n (remaining f))).

(** A computation that reads from the file and may raise. *)
Definition M (A : Type) : Type := file -> result (A * file).

Definition ret {A} (a : A) : M A := fun f => Ok (a, f).

Definition bind {A B} (m : M A) (k : A -> M B) : M B :=
  fun f => match m f with
           | Ok (a, f') => k a f'
           | Raise e => Raise e
           end.

Definition raise {A} (e : exn) : M A := fun _ => Raise e.

Notation "x <- m ;; k" := (bind m (fun x => k))
  (at level 61, m at next level, right associativity).

(** [f.read(n)] *)
Definition read (n : N) : M (list byte) :=
  fun f => Ok (take n (remaining f), advance n f).

(** [str(b, encoding='utf-8')] *)
Definition decode_utf8 (b : list byte) : M str :=
  match utf8_decode b with
  | Some s => ret s
  | None => raise UnicodeDecodeError
  end.

Definition is_empty (b : list byte) : bool :=
  match b with [] => true | _ => false end.

(* ================================================================== *)
(** ** [read_dataset_item] *)

Definition read_dataset_item : M (option DataElement) :=
  tag_data <- read 4 ;;
  if is_empty tag_data then ret None else
  let group_num := int_from_bytes_little (firstn 2 tag_data) in
  let element_num := int_from_bytes_little (firstn 2 (skipn 2 tag_data)) in
  if ((group_num =? 0xfffe) && (element_num =? 0xe000))%N then
    b <- read 4 ;;
    let length := int_from_bytes_little b in
    if negb (length =? UNDEFINED_LENGTH)%N then
      data <- read length ;;
      ret (Some (ItemDataElement_init length (Some data) []))
    else
      ret (Some (ItemDataElement_init length None []))
  else if ((group_num =? 0xfffe) && (element_num =? 0xe00d))%N then
    b <- read 4 ;;
    let length := int_from_bytes_little b in
    if negb (length =? UNDEFINED_LENGTH)%N then
      data <- read length ;;
      ret (Some (ItemDelimitationElement_init length (Some data) []))
    else
      ret (Some (ItemDelimitationElement_init length None []))
  else if ((group_num =? 0xfffe) && (element_num =? 0xe0dd))%N then
    b <- read 4 ;;
    let length := int_from_bytes_little b in
    if negb (length =? UNDEFINED_LENGTH)%N then
      data <- read length ;;
      ret (Some (SequenceDelimitationElement_init length (Some data) []))
    else
      ret (Some (SequenceDelimitationElement_init length None []))
  else
  vr_bytes <- read 2 ;;
  value_repr <- decode_utf8 vr_bytes ;;
  length <-
    (if str_in value_repr VR_EXPLICIT_16BIT_VLF then
       b <- read 2 ;;
       ret (int_from_bytes_little b)
     else
       _ <- read 2 ;;
       b <- read 4 ;;
       ret (int_from_bytes_little b)) ;;
  if (length =? UNDEFINED_LENGTH)%N then
    ret (Some (DataElement_init (Tag group_num element_num) value_repr
                                length None []))
  else
    data <- read length ;;
    ret (Some (DataElement_init (Tag group_num element_num) value_repr
                                length (Some data) [])).

(* ================================================================== *)
(** ** [read_dataset] *)

(** One pass through the body of the [while True] loop, with [self] for
    both the recursive call on the children and the next iteration of the
    loop. [dataset.append(item)] stores a reference: the children added
    to [item] afterwards are seen through the list, so the list is built
    from the element as it is after [add_children]. *)
Definition read_dataset_body
    (self : file -> option (result (list DataElement * file)))
    (f : file) : option (result (list DataElement * file)) :=
  match read_dataset_item f with
  | Raise e => Some (Raise e)
  | Ok (None, f1) => Some (Ok ([], f1))
  | Ok (Some item, f1) =>
    let with_children :=
      if is_length_undefined item then
        match self f1 with
        | Some (Ok (cs, f2)) => Some (Ok (add_children item cs, f2))
        | Some (Raise e) => Some (Raise e)
        | None => None
        end
      else Some (Ok (item, f1)) in
    match with_children with
    | Some (Ok (item', f2)) =>
      if is_delimiter item' then Some (Ok ([item'], f2))
      else
        match self f2 with
        | Some (Ok (rest, f3)) => Some (Ok (item' :: rest, f3))
        | Some (Raise e) => Some (Raise e)
        | None => None
        end
    | Some (Raise e) => Some (Raise e)
    | None => None
    end
  end.

(** [read_dataset] with a bound on the number of nested calls and loop
    iterations; [None] when the bound is reached. *)
Fixpoint read_dataset_fuel (fuel : nat) (f : file)
  : option (result (list DataElement * file)) :=
  match fuel with
  | O => None
  | S k => read_dataset_body (read_dataset_fuel k) f
  end.

(** [read_dataset]. Every element read takes at least one byte, so one
    more unit of fuel than there are unread bytes is enough
    ([read_dataset_fuel_enough] below); the last branch is never taken. *)
Definition read_dataset : M (list DataElement) := fun f =>
  match read_dataset_fuel (S (List.length (remaining f))) f with
  | Some r => r
  | None => Ok ([], f)
  end.

(* ================================================================== *)
(** ** [DICOM] and [load] *)

Record DICOM := Build_DICOM {
  path : string;
  preamble : list byte;
  dataset : list DataElement
}.

(** [DICOM.find_elements_by_tag] *)
Definition find_elements_by_tag (self : DICOM) (t : ElementTag)
  : list DataElement :=
  fold_left
    (fun elements item =>
       if ElementTag_eq (tag item) t then elements ++ [item] else elements)
    (dataset self) [].

(** The files that can be opened: the bytes stored under each path. *)
Definition filesystem := string -> option (list byte).

Definition bytes_eqb (a b : list byte) : bool :=
  if list_eq_dec Byte.byte_eq_dec a b then true else false.

(** The bytes of an ASCII literal such as [b'DICM']. *)
Definition bytes_of_string (s : string) : list byte :=
  map byte_of_ascii (list_ascii_of_string s).

(** [load]: [open(path, 'rb')] gives a file positioned at its start. *)
Definition load (fs : filesystem) (p : string) : result DICOM :=
  match fs p with
  | None => Raise FileNotFoundError
  | Some bytes =>
    match (preamble <- read 128 ;;
           magic <- read 4 ;;
           if negb (bytes_eqb magic (bytes_of_string "DICM")) then
             raise (InvalidDICOMFileException "invalid magic header")
           else
             dataset <- read_dataset ;;
             ret (Build_DICOM p preamble dataset)) (File bytes 0) with
    | Ok (d, _) => Ok d
    | Raise e => Raise e
    end
  end.

(* ================================================================== *)
(** ** Vocabulary of the statements *)

(** The tag held by the first four unread bytes: [group_num] and
    [element_num] as [read_dataset_item] computes them. *)
Definition tag_of (r : list byte) : ElementTag :=
  Tag (int_from_bytes_little (firstn 2 (take 4 r)))
      (int_from_bytes_little (firstn 2 (skipn 2 (take 4 r)))).

(** The subclass that belongs to a reserved tag. *)
Definition reserved_class (t : ElementTag) : option element_class :=
  if ((group t =? 0xfffe) && (elem t =? 0xe000))%N
  then Some ItemDataElementClass
  else if ((group t =? 0xfffe) && (elem t =? 0xe00d))%N
  then Some ItemDelimitationElementClass
  else if ((group t =? 0xfffe) && (elem t =? 0xe0dd))%N
  then Some SequenceDelimitationElementClass
  else None.

(** The number of value bytes requested for a length field: none when the
    field holds the undefined-length value. *)
Definition payload_length (len : N) : N :=
  if (len =? UNDEFINED_LENGTH)%N then 0%N else len.

(** The value read for a length field from the bytes that follow it. *)
Definition payload (len : N) (r : list byte) : option (list byte) :=
  if (len =? UNDEFINED_LENGTH)%N then None else Some (take len r).

(** [item_layout r e n]: the unread bytes [r] start with an element that
    is decoded as [e] by a request for [n] bytes in all. *)
Inductive item_layout (r : list byte) : DataElement -> N -> Prop :=
| layout_reserved c len :
    r <> [] ->
    reserved_class (tag_of r) = Some c ->
    len = int_from_bytes_little (take 4 (drop 4 r)) ->
    item_layout r
      (Element c (tag_of r) None (stored_length len)
               (payload len (drop 8 r)) [])
      (8 + payload_length len)
| layout_short vr len :
    r <> [] ->
    reserved_class (tag_of r) = None ->
    utf8_decode (take 2 (drop 4 r)) = Some vr ->
    str_in vr VR_EXPLICIT_16BIT_VLF = true ->
    len = int_from_bytes_little (take 2 (drop 6 r)) ->
    item_layout r
      (Element DataElementClass (tag_of r) (Some vr) (stored_length len)
               (payload len (drop 8 r)) [])
      (8 + payload_length len)
| layout_long vr len :
    r <> [] ->
    reserved_class (tag_of r) = None ->
    utf8_decode (take 2 (drop 4 r)) = Some vr ->
    str_in vr VR_EXPLICIT_16BIT_VLF = false ->
    len = int_from_bytes_little (take 4 (drop 8 r)) ->
    item_layout r
      (Element DataElementClass (tag_of r) (Some vr) (stored_length len)
               (payload len (drop 12 r)) [])
      (12 + payload_length len).

(** [occurs_in e l]: [e] is an entry of [l] or of the children of an
    element that occurs in [l], at any depth. *)
Inductive occurs_in (e : DataElement) : list DataElement -> Prop :=
| occurs_here l : In e l -> occurs_in e l
| occurs_below p l : In p l -> occurs_in e (children p) -> occurs_in e l.

(** [dataset_run f ds f']: a call of [read_dataset] on [f] that returns
    [ds] and leaves the file as [f'], told by the iterations of its loop:
    the end of the data, a last element (a delimiter) and an element
    followed by further iterations, each without and with the nested call
    for an element of undefined length. *)
Inductive dataset_run : file -> list DataElement -> file -> Prop :=
| run_end f :
    remaining f = [] ->
    dataset_run f [] (advance 4 f)
| run_last f item n :
    item_layout (remaining f) item n ->
    is_length_undefined item = false ->
    is_delimiter item = true ->
    dataset_run f [item] (advance n f)
| run_more f item n rest f3 :
    item_layout (remaining f) item n ->
    is_length_undefined item = false ->
    is_delimiter item = false ->
    dataset_run (advance n f) rest f3 ->
    dataset_run f (item :: rest) f3
| run_last_nested f item n cs f2 :
    item_layout (remaining f) item n ->
    is_length_undefined item = true ->
    dataset_run (advance n f) cs f2 ->
    is_delimiter item = true ->
    dataset_run f [add_children item cs] f2
| run_more_nested f item n cs f2 rest f3 :
    item_layout (remaining f) item n ->
    is_length_undefined item = true ->
    dataset_run (advance n f) cs f2 ->
    is_delimiter item = false ->
    dataset_run f2 rest f3 ->
    dataset_run f (add_children item cs :: rest) f3.

(** The stored length as a byte count, an undefined length counting
    as 0. *)
Definition length_or_0 (e : DataElement) : N :=
  match val_length e with
  | Some len => len
  | None => 0%N
  end.

(** The size on the wire that the fields of an element announce: tag, VR
    and a short or a long length field, or tag and length field for the
    three subclasses, and the value. *)
Definition expected_size (e : DataElement) : N :=
  match class_of e, val_repr e with
  | DataElementClass, Some vr =>
    if str_in vr VR_EXPLICIT_16BIT_VLF
    then (4 + 2 + 2 + length_or_0 e)%N
    else (4 + 2 + 6 + length_or_0 e)%N
  | _, _ => (4 + 4 + length_or_0 e)%N
  end.

(** Two results of a reader agree: the same value and the same unread
    bytes, or the same exception. *)
Definition agree {A} (r1 r2 : result (A * file)) : Prop :=
  match r1, r2 with
  | Ok (a1, g1), Ok (a2, g2) => a1 = a2 /\ remaining g1 = remaining g2
  | Raise x1, Raise x2 => x1 = x2
  | _, _ => False
  end.

(** The bytes with the given values, for the examples. *)
Definition octets (l : list nat) : list byte :=
  map (fun n => match Byte.of_nat n with
                | Some b => b
                | None => Byte.x00
                end) l.

(** A sequence of undefined length closed at once by a sequence
    delimitation element. *)
Definition example_sequence : list byte :=
  octets [0x08; 0x00; 0x00; 0x00; 0x53; 0x51; 0x00; 0x00;
          0xff; 0xff; 0xff; 0xff;
          0xfe; 0xff; 0xdd; 0xe0; 0x00; 0x00; 0x00; 0x00].

(** The tree decoded from [example_sequence]. *)
Definition example_sequence_element : DataElement :=
  Element DataElementClass (Tag 0x0008 0x0000) (Some (str_of_string "SQ"))
          None None [SequenceDelimitationElement_init 0 (Some []) []].

(** One element with a 16-bit length field: tag (0008,0000), VR UL,
    length 4, value 01 02 03 04. *)
Definition example_ul : list byte :=
  octets [0x08; 0x00; 0x00; 0x00; 0x55; 0x4c; 0x04; 0x00;
          0x01; 0x02; 0x03; 0x04].

(** The element decoded from [example_ul]. *)
Definition example_ul_element : DataElement :=
  DataElement_init (Tag 0x0008 0x0000) (str_of_string "UL") 4
                   (Some (octets [0x01; 0x02; 0x03; 0x04])) [].

(** A file with the preamble and the magic bytes, followed by an element
    whose VR bytes are FF FF. *)
Definition example_bad_vr_file : list byte :=
  repeat Byte.x00 128 ++ bytes_of_string "DICM"
  ++ octets [0x08; 0x00; 0x00; 0x00; 0xff; 0xff].

(** A file with a zero preamble, the magic bytes and the one element of
    [example_ul]. *)
Definition example_file : list byte :=
  repeat Byte.x00 128 ++ bytes_of_string "DICM" ++ example_ul.

(** The same with the magic bytes replaced. *)
Definition example_bad_magic_file : list byte :=
  repeat Byte.x00 128 ++ bytes_of_string "XXXX" ++ example_ul.

(** The number of elements of a tree, the element itself included. *)
Fixpoint count_elements (e : DataElement) : nat :=
  match e with
  | Element _ _ _ _ _ cs => S (list_sum (map count_elements cs))
  end.

Definition count_all (l : list DataElement) : nat :=
  list_sum (map count_elements l).

(** The bytes that the fields of a whole tree announce: [expected_size]
    of the element and of all the elements below it. *)
Fixpoint tree_size (e : DataElement) : N :=
  match e with
  | Element _ _ _ _ _ cs =>
    (expected_size e + fold_right N.add 0 (map tree_size cs))%N
  end.

Definition forest_size (l : list DataElement) : N :=
  fold_right N.add 0%N (map tree_size l).

(** No entry of a sequence other than the last is a delimiter. *)
Definition delimiter_only_last (l : list DataElement) : Prop :=
  Forall (fun x => is_delimiter x = false) (removelast l).

(** An item element of undefined length holding one element and closed by
    an item delimitation element, followed by a sequence delimitation
    element and two more bytes. *)
Definition example_item : list byte :=
  octets [0xfe; 0xff; 0x00; 0xe0; 0xff; 0xff; 0xff; 0xff]
  ++ example_ul
  ++ octets [0xfe; 0xff; 0x0d; 0xe0; 0x00; 0x00; 0x00; 0x00;
             0xfe; 0xff; 0xdd; 0xe0; 0x00; 0x00; 0x00; 0x00;
             0x08; 0x00].

(** The tree decoded from [example_item]. *)
Definition example_item_tree : list DataElement :=
  [ItemDataElement_init UNDEFINED_LENGTH None
     [example_ul_element; ItemDelimitationElement_init 0 (Some []) []];
   SequenceDelimitationElement_init 0 (Some []) []].

(* ================================================================== *)
(** ** String representations and the XML dump *)

(** [hex(n)] *)
Definition py_hex (n : N) : str := str_of_string (HexString.of_N n).

(** [str(n)] for an [int] that is not negative. *)
Definition py_str_int (n : N) : str :=
  str_of_string (DecimalString.NilZero.string_of_uint (N.to_uint n)).

Definition hexdigit (n : N) : N :=
  if (n <? 10)%N then (48 + n)%N else (87 + n)%N.

(** The quote that [repr] of a [bytes] object uses: a double quote when
    the bytes hold a single quote and no double quote, otherwise a single
    quote. *)
Definition bytes_quote (b : list byte) : N :=
  if existsb (fun x => (Byte.to_N x =? 39)%N) b
     && negb (existsb (fun x => (Byte.to_N x =? 34)%N) b)
  then 34%N else 39%N.

(** The characters that [repr] of a [bytes] object writes for one byte. *)
Definition bytes_escape (quote : N) (x : byte) : str :=
  let c := Byte.to_N x in
  if ((c =? quote) || (c =? 92))%N then [92; c]%N
  else if (c =? 9)%N then [92; 116]%N
  else if (c =? 10)%N then [92; 110]%N
  else if (c =? 13)%N then [92; 114]%N
  else if ((c <? 32) || (127 <=? c))%N
       then [92; 120; hexdigit (c / 16); hexdigit (c mod 16)]%N
       else [c].

(** [str(b)] and [repr(b)] for a [bytes] object [b]. *)
Definition py_str_bytes (b : list byte) : str :=
  let quote := bytes_quote b in
  [98%N; quote] ++ flat_map (bytes_escape quote) b ++ [quote].

Definition str_None : str := str_of_string "None".

(** [str(x)] for [x] a string or [None], an [int] or [None], a [bytes]
    object or [None]. *)
Definition py_str_opt_str (o : option str) : str :=
  match o with Some s => s | None => str_None end.

Definition py_str_opt_int (o : option N) : str :=
  match o with Some n => py_str_int n | None => str_None end.

Definition py_str_opt_bytes (o : option (list byte)) : str :=
  match o with Some b => py_str_bytes b | None => str_None end.

(** [sep.join(l)] *)
Fixpoint str_join (sep : str) (l : list str) : str :=
  match l with
  | [] => []
  | [x] => x
  | x :: r => x ++ sep ++ str_join sep r
  end.

(** [repr(l)] of a list, from the [repr] of its entries. *)
Definition py_repr_list (l : list str) : str :=
  str_of_string "[" ++ str_join (str_of_string ", ") l ++ str_of_string "]".

(** [ElementTag.__repr__], which [__str__] returns as well. *)
Definition ElementTag_repr (self : ElementTag) : str :=
  str_of_string "Tag(" ++ py_hex (group self) ++ str_of_string ", "
  ++ py_hex (elem self) ++ str_of_string ")".

(** [self.val_length if self.val_length else "UNDEFINED"], formatted:
    [None] and 0 are both false. *)
Definition vl_text (val_length : option N) : str :=
  match val_length with
  | Some n => if (n =? 0)%N then str_of_string "UNDEFINED" else py_str_int n
  | None => str_of_string "UNDEFINED"
  end.

(** [__repr__] of [DataElement] and of its three subclasses, which
    [__str__] returns as well; the children are shown by their own
    [__repr__]. *)
Fixpoint DataElement_repr (self : DataElement) : str :=
  match self with
  | Element c t vr len _ cs =>
    let kids := py_repr_list (map DataElement_repr cs) in
    match c with
    | DataElementClass =>
      str_of_string "DataElement(" ++ ElementTag_repr t
      ++ str_of_string ", vr=" ++ py_str_opt_str vr
      ++ str_of_string ", vl=" ++ vl_text len
      ++ str_of_string ", children=" ++ kids ++ str_of_string ")"
    | ItemDataElementClass =>
      str_of_string "ItemDataElement(vl=" ++ vl_text len
      ++ str_of_string ", children=" ++ kids ++ str_of_string ")"
    | ItemDelimitationElementClass =>
      str_of_string "ItemDelimitationElement(vl=" ++ vl_text len
      ++ str_of_string ", children=" ++ kids ++ str_of_string ")"
    | SequenceDelimitationElementClass =>
      str_of_string "SequenceDelimitationElement(vl=" ++ vl_text len
      ++ str_of_string ", children=" ++ kids ++ str_of_string ")"
    end
  end.

(** [DICOM.__repr__] *)
Definition DICOM_repr (self : DICOM) : str :=
  str_of_string "DICOM(" ++ str_of_string (path self)
  ++ str_of_string ", size="
  ++ py_str_int (N.of_nat (List.length (dataset self)))
  ++ str_of_string ")".

(** [item.__class__.__name__] *)
Definition class_name (c : element_class) : str :=
  str_of_string
    match c with
    | DataElementClass => "DataElement"
    | ItemDataElementClass => "ItemDataElement"
    | ItemDelimitationElementClass => "ItemDelimitationElement"
    | SequenceDelimitationElementClass => "SequenceDelimitationElement"
    end.

(** An [xml.etree.ElementTree.Element]: its tag, its attributes in the
    order they were first set, its text and its sub-elements. The [tail]
    is left out; nothing here sets it. *)
#[warnings="-register-all"] Inductive xml := XmlElement {
  xtag : str;
  attrib : list (str * str);
  text : option str;
  subelements : list xml
}.

(** [attrib[key] = value] on the dictionary of attributes. *)
Fixpoint attrib_set (a : list (str * str)) (key value : str)
  : list (str * str) :=
  match a with
  | [] => [(key, value)]
  | (k, v) :: r =>
    if str_eqb k key then (k, value) :: r
    else (k, v) :: attrib_set r key value
  end.

(** [node.set(key, value)] *)
Definition xml_set (node : xml) (key value : str) : xml :=
  XmlElement (xtag node) (attrib_set (attrib node) key value) (text node)
             (subelements node).

(** [node.text = value] *)
Definition xml_set_text (node : xml) (value : str) : xml :=
  XmlElement (xtag node) (attrib node) (Some value) (subelements node).

(** [parent.append(node)] *)
Definition xml_append (parent node : xml) : xml :=
  XmlElement (xtag parent) (attrib parent) (text parent)
             (subelements parent ++ [node]).

(** [dump_element_xml_tree(item, parent)]: the result is [parent] after
    the call. [ET.SubElement] appends the new element to [parent] before
    its attributes, text and sub-elements are set; the parent holds a
    reference to it, so it is appended here as it is at the end. *)
Fixpoint dump_element_xml_tree (item : DataElement) (parent : xml) : xml :=
  match item with
  | Element c t vr len data cs =>
    let node := XmlElement (class_name c) [] None [] in
    let node := xml_set node (str_of_string "group") (py_hex (group t)) in
    let node := xml_set node (str_of_string "elem") (py_hex (elem t)) in
    let node := xml_set node (str_of_string "vr") (py_str_opt_str vr) in
    let node := xml_set node (str_of_string "vl") (py_str_opt_int len) in
    let node := xml_set_text node (py_str_opt_bytes data) in
    let node :=
      fold_left (fun el child => dump_element_xml_tree child el) cs node in
    xml_append parent node
  end.

(** The element that [dump_xml] builds: the root, its text and the loop
    over the dataset. The serialisation by [ET.tostring] and the writing
    of the file are outside the model. *)
Definition dump_xml_root (dicom : DICOM) : xml :=
  let root := XmlElement (str_of_string "DICOM") [] None [] in
  let root := xml_set_text root (py_str_bytes (preamble dicom)) in
  fold_left (fun r item => dump_element_xml_tree item r) (dataset dicom) root.

(** The XML element that describes a data element, by structure. *)
Fixpoint xml_of (item : DataElement) : xml :=
  match item with
  | Element c t vr len data cs =>
    XmlElement (class_name c)
      [(str_of_string "group", py_hex (group t));
       (str_of_string "elem", py_hex (elem t));
       (str_of_string "vr", py_str_opt_str vr);
       (str_of_string "vl", py_str_opt_int len)]
      (Some (py_str_opt_bytes data))
      (map xml_of cs)
  end.

(** The number of elements of an XML tree. *)
Fixpoint xml_count (x : xml) : nat :=
  match x with
  | XmlElement _ _ _ cs => S (list_sum (map xml_count cs))
  end.

(** Every character is a printable ASCII character. *)
Definition printable (s : str) : Prop :=
  Forall (fun c => (32 <= c <= 126)%N) s.

(** The element with a length of 0 taken as undefined and the value
    dropped, at all depths. *)
Fixpoint forget_value (e : DataElement) : DataElement :=
  match e with
  | Element c t vr len _ cs =>
    Element c t vr
      (match len with Some 0%N => None | _ => len end)
      None (map forget_value cs)
  end.

(** No VR in the trees is the string [None]. *)
Definition vr_never_None (l : list DataElement) : Prop :=
  forall x, occurs_in x l -> val_repr x <> Some str_None.

(** The byte that one escape of [bytes_escape] stands for, and what
    follows it. *)
Definition bytes_unescape (quote : N) (s : str) : option (byte * str) :=
  match s with
  | [] => None
  | c :: r =>
    if (c =? 92)%N then
      match r with
      | [] => None
      | d :: r' =>
        if ((d =? quote) || (d =? 92))%N
        then option_map (fun x => (x, r')) (Byte.of_N d)
        else if (d =? 116)%N then Some (Byte.x09, r')
        else if (d =? 110)%N then Some (Byte.x0a, r')
        else if (d =? 114)%N then Some (Byte.x0d, r')
        else if (d =? 120)%N then
          match r' with
          | h :: l :: r'' =>
            let v n := if (n <? 58)%N then (n - 48)%N else (n - 87)%N in
            option_map (fun x => (x, r'')) (Byte.of_N (16 * v h + v l))
          | _ => None
          end
        else None
      end
    else if (c =? quote)%N then None
    else option_map (fun x => (x, r)) (Byte.of_N c)
  end.

(** [printable] as a test. *)
Definition printableb (s : str) : bool :=
  forallb (fun c => (32 <=? c) && (c <=? 126))%N s.

(** Two elements, the first with a value of length 0. *)
Definition example_pair : list DataElement :=
  [DataElement_init (Tag 0x0008 0x0005) (str_of_string "CS") 0 (Some []) [];
   example_sequence_element].

(** An instance of [ItemDelimitationElement] or of
    [SequenceDelimitationElement]. *)
Definition is_delimitation (x : DataElement) : Prop :=
  class_of x = ItemDelimitationElementClass \/
  class_of x = SequenceDelimitationElementClass.

(** The sequence is not empty, its last entry is a delimitation element
    and no entry before it is one. *)
Definition closed_by_delimiter (l : list DataElement) : Prop :=
  exists init d,
    l = init ++ [d] /\ is_delimitation d /\
    Forall (fun x => ~ is_delimitation x) init.

(** No entry of the sequence is a delimitation element. *)
Definition no_delimiter (l : list DataElement) : Prop :=
  Forall (fun x => ~ is_delimitation x) l.

(* ================================================================== *)
(** * Properties *)

(** ** Slices and little-endian integers *)

Lemma take_firstn {A} (n : N) (l : list A) : take n l = firstn (N.to_nat n) l.
Proof.
  revert n; induction l as [|x l IH]; intro n; simpl.
  - now rewrite firstn_nil.
  - destruct (N.eqb_spec n 0) as [->|Hn]; [reflexivity|].
    replace (N.to_nat n) with (S (N.to_nat (N.pred n))) by lia.
    simpl. now rewrite IH.
Qed.

Lemma drop_skipn {A} (n : N) (l : list A) : drop n l = skipn (N.to_nat n) l.
Proof.
  revert n; induction l as [|x l IH]; intro n; simpl.
  - now rewrite skipn_nil.
  - destruct (N.eqb_spec n 0) as [->|Hn]; [reflexivity|].
    replace (N.to_nat n) with (S (N.to_nat (N.pred n))) by lia.
    simpl. now rewrite IH.
Qed.

Lemma take_0 {A} (l : list A) : take 0 l = [].
Proof. now destruct l. Qed.

Lemma drop_0 {A} (l : list A) : drop 0 l = l.
Proof. now destruct l. Qed.

Lemma take_drop {A} (n : N) (l : list A) : take n l ++ drop n l = l.
Proof. rewrite take_firstn, drop_skipn. apply firstn_skipn. Qed.

Lemma drop_drop {A} (n m : N) (l : list A) :
  drop m (drop n l) = drop (n + m) l.
Proof.
  rewrite !drop_skipn, skipn_skipn. f_equal. lia.
Qed.

Lemma length_take {A} (n : N) (l : list A) :
  List.length (take n l) = Nat.min (N.to_nat n) (List.length l).
Proof. rewrite take_firstn. apply length_firstn. Qed.

Lemma length_drop {A} (n : N) (l : list A) :
  List.length (drop n l) = List.length l - N.to_nat n.
Proof. rewrite drop_skipn. apply length_skipn. Qed.

Lemma drop_length_take {A} (n : N) (l : list A) :
  skipn (List.length (take n l)) l = drop n l.
Proof.
  rewrite length_take, drop_skipn.
  destruct (Nat.le_ge_cases (N.to_nat n) (List.length l)) as [H|H].
  - now rewrite Nat.min_l.
  - rewrite Nat.min_r by assumption.
    now rewrite skipn_all, skipn_all2.
Qed.

Lemma take_nil_iff (n : N) (l : list byte) :
  (0 < n)%N -> (is_empty (take n l) = true <-> l = []).
Proof.
  intro Hn. destruct l as [|x l]; simpl; [tauto|].
  destruct (N.eqb_spec n 0); [lia|]. simpl. split; discriminate.
Qed.

Lemma int_from_bytes_little_bound (b : list byte) :
  (int_from_bytes_little b < 256 ^ N.of_nat (List.length b))%N.
Proof.
  induction b as [|x b IH].
  - simpl. lia.
  - cbn [int_from_bytes_little List.length].
    rewrite Nat2N.inj_succ, N.pow_succ_r'.
    pose proof (Byte.to_N_bounded x) as Hx.
    set (p := (256 ^ N.of_nat (List.length b))%N) in *. lia.
Qed.

(** A two-byte field is [b0 + 256 * b1]; a four-byte field is
    [b0 + 256 * b1 + 65536 * b2 + 16777216 * b3]. *)
Lemma int_from_bytes_little_2 (b0 b1 : byte) :
  int_from_bytes_little [b0; b1] = (Byte.to_N b0 + 256 * Byte.to_N b1)%N.
Proof. cbn [int_from_bytes_little]. lia. Qed.

Lemma int_from_bytes_little_4 (b0 b1 b2 b3 : byte) :
  int_from_bytes_little [b0; b1; b2; b3]
  = (Byte.to_N b0 + 256 * Byte.to_N b1 + 65536 * Byte.to_N b2
     + 16777216 * Byte.to_N b3)%N.
Proof. cbn [int_from_bytes_little]. lia. Qed.

(** ** The file position *)

Lemma remaining_advance (n : N) (f : file) :
  remaining (advance n f) = drop n (remaining f).
Proof.
  unfold remaining, advance; simpl.
  rewrite Nat.add_comm, <- skipn_skipn.
  apply drop_length_take.
Qed.

Lemma content_advance (n : N) (f : file) : content (advance n f) = content f.
Proof. reflexivity. Qed.

Lemma pos_advance (n : N) (f : file) :
  pos (advance n f)
  = pos f + Nat.min (N.to_nat n) (List.length (remaining f)).
Proof. unfold advance; simpl. now rewrite length_take. Qed.

Lemma advance_advance (n m : N) (f : file) :
  advance m (advance n f) = advance (n + m) f.
Proof.
  unfold advance at 1. rewrite remaining_advance.
  unfold advance; simpl. f_equal.
  rewrite !length_take, length_drop. lia.
Qed.

Lemma length_remaining_advance (n : N) (f : file) :
  List.length (remaining (advance n f))
  = List.length (remaining f) - N.to_nat n.
Proof. rewrite remaining_advance. apply length_drop. Qed.

Lemma advance_start (bytes : list byte) (n : N) :
  N.to_nat n <= List.length bytes ->
  advance n (File bytes 0) = File bytes (N.to_nat n).
Proof.
  intro H. unfold advance, remaining; cbn [content pos skipn].
  rewrite length_take. f_equal. lia.
Qed.

#[global] Opaque advance.

(** ** One element *)

Lemma reserved_class_tag (t : ElementTag) (c : element_class) :
  reserved_class t = Some c ->
  c <> DataElementClass /\
  t = match c with
      | ItemDataElementClass => Tag 0xfffe 0xe000
      | ItemDelimitationElementClass => Tag 0xfffe 0xe00d
      | _ => Tag 0xfffe 0xe0dd
      end.
Proof.
  destruct t as [g el]; unfold reserved_class; simpl.
  repeat match goal with
  | |- context [(?a =? ?b)%N] => destruct (N.eqb_spec a b); simpl
  end; intro H; inversion H; subst; (split; [discriminate|reflexivity]).
Qed.

Ltac sum_literals :=
  repeat match goal with
  | |- context [(N.pos ?a + N.pos ?b)%N] =>
      let v := eval compute in (N.pos a + N.pos b)%N in
      change (N.pos a + N.pos b)%N with v
  end.

Ltac finish_item :=
  cbv beta;
  rewrite ?remaining_advance, ?advance_advance, ?drop_drop;
  sum_literals;
  unfold payload, payload_length;
  match goal with
  | |- context [(?l =? UNDEFINED_LENGTH)%N] =>
      destruct (l =? UNDEFINED_LENGTH)%N; cbn [negb];
      rewrite ?remaining_advance, ?advance_advance, ?drop_drop
  end;
  sum_literals; repeat f_equal; try lia.

(** [read_dataset_item] as a function of the unread bytes. *)
Lemma read_dataset_item_eq (f : file) :
  read_dataset_item f =
  let r := remaining f in
  if is_empty (take 4 r) then Ok (None, advance 4 f) else
  match reserved_class (tag_of r) with
  | Some c =>
    let len := int_from_bytes_little (take 4 (drop 4 r)) in
    Ok (Some (Element c (tag_of r) None (stored_length len)
                      (payload len (drop 8 r)) []),
        advance (8 + payload_length len) f)
  | None =>
    match utf8_decode (take 2 (drop 4 r)) with
    | None => Raise UnicodeDecodeError
    | Some vr =>
      if str_in vr VR_EXPLICIT_16BIT_VLF then
        let len := int_from_bytes_little (take 2 (drop 6 r)) in
        Ok (Some (Element DataElementClass (tag_of r) (Some vr)
                          (stored_length len) (payload len (drop 8 r)) []),
            advance (8 + payload_length len) f)
      else
        let len := int_from_bytes_little (take 4 (drop 8 r)) in
        Ok (Some (Element DataElementClass (tag_of r) (Some vr)
                          (stored_length len) (payload len (drop 12 r)) []),
            advance (12 + payload_length len) f)
    end
  end.
Proof.
  cbv beta iota zeta delta [read_dataset_item bind read ret raise decode_utf8
       ItemDataElement_init ItemDelimitationElement_init
       SequenceDelimitationElement_init DataElement_init].
  destruct (is_empty (take 4 (remaining f))) eqn:He; [reflexivity|].
  set (r := remaining f).
  unfold reserved_class, tag_of; cbn [group elem].
  set (g := int_from_bytes_little (firstn 2 (take 4 r))).
  set (el := int_from_bytes_little (firstn 2 (skipn 2 (take 4 r)))).
  destruct (N.eqb_spec g 65534) as [Hg|Hg]; cbn [andb];
    [destruct (N.eqb_spec el 57344) as [H0|H0];
       [|destruct (N.eqb_spec el 57357) as [H1|H1];
           [|destruct (N.eqb_spec el 57565) as [H2|H2]]]|].
  1-3: rewrite <- ?Hg, <- ?H0, <- ?H1, <- ?H2; subst r; finish_item.
  all: rewrite remaining_advance; fold r;
    destruct (utf8_decode (take 2 (drop 4 r))) as [vr|]; [|reflexivity];
    destruct (str_in vr VR_EXPLICIT_16BIT_VLF); cbv beta iota; subst r;
    finish_item.
Qed.

Lemma is_empty_take4 (r : list byte) :
  is_empty (take 4 r) = false <-> r <> [].
Proof.
  destruct r as [|x r]; simpl; split; intro H; congruence.
Qed.

(** The three outcomes of [read_dataset_item]. *)
Lemma read_dataset_item_some (f : file) (e : DataElement) (f' : file) :
  read_dataset_item f = Ok (Some e, f') <->
  exists n, item_layout (remaining f) e n /\ f' = advance n f.
Proof.
  rewrite read_dataset_item_eq; cbv zeta. split.
  - destruct (is_empty (take 4 (remaining f))) eqn:He; [discriminate|].
    apply is_empty_take4 in He.
    destruct (reserved_class (tag_of (remaining f))) as [c|] eqn:Hc.
    + intro H; inversion H; subst.
      eexists; split; [now apply layout_reserved|reflexivity].
    + destruct (utf8_decode (take 2 (drop 4 (remaining f)))) as [vr|] eqn:Hd;
        [|discriminate].
      destruct (str_in vr VR_EXPLICIT_16BIT_VLF) eqn:Hv;
        intro H; inversion H; subst;
        (eexists; split;
         [(now apply layout_short) || (now apply layout_long)|reflexivity]).
  - intros [n [Hl ->]].
    inversion Hl as [c len Hr Hc Hlen|vr len Hr Hc Hd Hv Hlen
                     |vr len Hr Hc Hd Hv Hlen]; subst;
      apply is_empty_take4 in Hr; rewrite Hr, Hc; try rewrite Hd, Hv;
      reflexivity.
Qed.

Lemma read_dataset_item_none (f f' : file) :
  read_dataset_item f = Ok (None, f') <->
  remaining f = [] /\ f' = advance 4 f.
Proof.
  rewrite read_dataset_item_eq; cbv zeta.
  pose proof (take_nil_iff 4 (remaining f) eq_refl) as He.
  destruct (is_empty (take 4 (remaining f))).
  - split.
    + intro H; inversion H. split; [now apply He|reflexivity].
    + now intros [_ ->].
  - split.
    + destruct (reserved_class (tag_of (remaining f))); [discriminate|].
      destruct (utf8_decode (take 2 (drop 4 (remaining f)))); [|discriminate].
      destruct (str_in s VR_EXPLICIT_16BIT_VLF); discriminate.
    + intros [Hr _]. apply He in Hr. discriminate.
Qed.

Lemma read_dataset_item_raise (f : file) (x : exn) :
  read_dataset_item f = Raise x <->
  x = UnicodeDecodeError /\ remaining f <> [] /\
  reserved_class (tag_of (remaining f)) = None /\
  utf8_decode (take 2 (drop 4 (remaining f))) = None.
Proof.
  rewrite read_dataset_item_eq; cbv zeta.
  destruct (is_empty (take 4 (remaining f))) eqn:He.
  - split; [discriminate|].
    intros [_ [Hr _]]. apply is_empty_take4 in Hr. congruence.
  - apply is_empty_take4 in He.
    destruct (reserved_class (tag_of (remaining f)));
      [split; [discriminate|intros [_ [_ [? _]]]; discriminate]|].
    destruct (utf8_decode (take 2 (drop 4 (remaining f)))) as [vr|].
    + split; [|intros [_ [_ [_ ?]]]; discriminate].
      destruct (str_in vr VR_EXPLICIT_16BIT_VLF); discriminate.
    + split; [intro H; inversion H; auto|now intros [-> _]].
Qed.

(** An element is never decoded from an empty request. *)
Lemma item_layout_progress (r : list byte) (e : DataElement) (n : N) :
  item_layout r e n -> r <> [] /\ (8 <= n)%N.
Proof.
  intro H; inversion H; subst; split; auto; lia.
Qed.

Lemma read_dataset_item_progress (f : file) (e : DataElement) (f' : file) :
  read_dataset_item f = Ok (Some e, f') ->
  List.length (remaining f') < List.length (remaining f).
Proof.
  intro H. apply read_dataset_item_some in H as [n [Hl ->]].
  apply item_layout_progress in Hl as [Hr Hn].
  rewrite length_remaining_advance.
  destruct (remaining f); [congruence|cbn [List.length]; lia].
Qed.

(** ** The dataset loop *)

Lemma read_dataset_fuel_mono (fuel : nat) :
  forall f r, read_dataset_fuel fuel f = Some r ->
  forall fuel', fuel <= fuel' -> read_dataset_fuel fuel' f = Some r.
Proof.
  induction fuel as [|k IH]; intros f r H fuel' Hle; [discriminate|].
  destruct fuel' as [|k']; [lia|].
  assert (Hk : k <= k') by lia.
  cbn [read_dataset_fuel] in *. unfold read_dataset_body in *.
  destruct (read_dataset_item f) as [[[item|] f1]|x]; try assumption.
  destruct (is_length_undefined item).
  - destruct (read_dataset_fuel k f1) as [[[cs f2]|x]|] eqn:H1;
      try discriminate; rewrite (IH _ _ H1 _ Hk); try assumption.
    destruct (is_delimiter (add_children item cs)); [assumption|].
    destruct (read_dataset_fuel k f2) as [r2|] eqn:H2; [|discriminate].
    now rewrite (IH _ _ H2 _ Hk).
  - destruct (is_delimiter item); [assumption|].
    destruct (read_dataset_fuel k f1) as [r2|] eqn:H2; [|discriminate].
    now rewrite (IH _ _ H2 _ Hk).
Qed.

(** With more fuel than unread bytes the bound is not reached, and the
    file is never moved backwards. *)
Lemma read_dataset_fuel_enough (fuel : nat) :
  forall f, List.length (remaining f) < fuel ->
  exists r, read_dataset_fuel fuel f = Some r /\
    forall ds f', r = Ok (ds, f') ->
      List.length (remaining f') <= List.length (remaining f).
Proof.
  induction fuel as [|k IH]; intros f Hf; [lia|].
  cbn [read_dataset_fuel]. unfold read_dataset_body.
  destruct (read_dataset_item f) as [[[item|] f1]|x] eqn:Hi.
  - pose proof (read_dataset_item_progress _ _ _ Hi) as Hp.
    assert (H1 : List.length (remaining f1) < k) by lia.
    destruct (is_length_undefined item).
    + destruct (IH f1 H1) as [r1 [-> Hr1]].
      destruct r1 as [[cs f2]|x]; [|eexists; split; [reflexivity|discriminate]].
      specialize (Hr1 _ _ eq_refl).
      destruct (is_delimiter (add_children item cs)).
      * eexists; split; [reflexivity|]. intros ds f' H; inversion H; subst; lia.
      * assert (H2 : List.length (remaining f2) < k) by lia.
        destruct (IH f2 H2) as [r2 [-> Hr2]].
        destruct r2 as [[rest f3]|x];
          [|eexists; split; [reflexivity|discriminate]].
        specialize (Hr2 _ _ eq_refl).
        eexists; split; [reflexivity|].
        intros ds f' H; inversion H; subst; lia.
    + destruct (is_delimiter item).
      * eexists; split; [reflexivity|]. intros ds f' H; inversion H; subst; lia.
      * destruct (IH f1 H1) as [r2 [-> Hr2]].
        destruct r2 as [[rest f3]|x];
          [|eexists; split; [reflexivity|discriminate]].
        specialize (Hr2 _ _ eq_refl).
        eexists; split; [reflexivity|].
        intros ds f' H; inversion H; subst; lia.
  - apply read_dataset_item_none in Hi as [Hr ->].
    eexists; split; [reflexivity|].
    intros ds f' H; inversion H; subst.
    rewrite length_remaining_advance. lia.
  - eexists; split; [reflexivity|discriminate].
Qed.

Lemma read_dataset_fuel_sound (fuel : nat) (f : file) :
  List.length (remaining f) < fuel ->
  read_dataset_fuel fuel f = Some (read_dataset f).
Proof.
  intro Hf. unfold read_dataset.
  destruct (read_dataset_fuel_enough (S (List.length (remaining f))) f)
    as [r [Hr _]]; [lia|].
  rewrite Hr. apply (read_dataset_fuel_mono _ _ _ Hr). lia.
Qed.

Lemma read_dataset_shrinks (f : file) (ds : list DataElement) (f' : file) :
  read_dataset f = Ok (ds, f') ->
  List.length (remaining f') <= List.length (remaining f).
Proof.
  intro H.
  destruct (read_dataset_fuel_enough (S (List.length (remaining f))) f)
    as [r [Hr Hs]]; [lia|].
  rewrite read_dataset_fuel_sound in Hr by lia.
  inversion Hr; subst r. now apply (Hs ds).
Qed.

Lemma some_eq {A} (a b : A) : Some a = Some b -> a = b.
Proof. intro H. now injection H. Qed.

(** The loop of [read_dataset], free of the bound. *)
Lemma read_dataset_unfold (f : file) :
  read_dataset f =
  match read_dataset_item f with
  | Raise e => Raise e
  | Ok (None, f1) => Ok ([], f1)
  | Ok (Some item, f1) =>
    match (if is_length_undefined item then
             match read_dataset f1 with
             | Ok (cs, f2) => Ok (add_children item cs, f2)
             | Raise e => Raise e
             end
           else Ok (item, f1)) with
    | Ok (item', f2) =>
      if is_delimiter item' then Ok ([item'], f2)
      else match read_dataset f2 with
           | Ok (rest, f3) => Ok (item' :: rest, f3)
           | Raise e => Raise e
           end
    | Raise e => Raise e
    end
  end.
Proof.
  assert (H : Some (read_dataset f)
              = read_dataset_fuel (S (List.length (remaining f))) f)
    by (symmetry; apply read_dataset_fuel_sound; lia).
  change (read_dataset_fuel (S (List.length (remaining f))) f)
    with (read_dataset_body (read_dataset_fuel (List.length (remaining f))) f)
    in H.
  unfold read_dataset_body in H.
  destruct (read_dataset_item f) as [[[item|] f1]|x] eqn:Hi;
    try (exact (some_eq _ _ H)).
  pose proof (read_dataset_item_progress _ _ _ Hi) as Hp.
  rewrite (read_dataset_fuel_sound _ f1) in H by lia.
  destruct (is_length_undefined item).
  - destruct (read_dataset f1) as [[cs f2]|x] eqn:H1; [|exact (some_eq _ _ H)].
    apply read_dataset_shrinks in H1.
    rewrite (read_dataset_fuel_sound _ f2) in H by lia.
    destruct (is_delimiter (add_children item cs)); [exact (some_eq _ _ H)|].
    destruct (read_dataset f2) as [[rest f3]|x]; exact (some_eq _ _ H).
  - destruct (is_delimiter item); [exact (some_eq _ _ H)|].
    rewrite (read_dataset_fuel_sound _ f1) in H by lia.
    destruct (read_dataset f1) as [[rest f3]|x]; exact (some_eq _ _ H).
Qed.

Lemma is_delimiter_add_children (item : DataElement) cs :
  is_delimiter (add_children item cs) = is_delimiter item.
Proof. reflexivity. Qed.

Lemma is_length_undefined_add_children (item : DataElement) cs :
  is_length_undefined (add_children item cs) = is_length_undefined item.
Proof. reflexivity. Qed.

Lemma item_layout_children r (item : DataElement) n :
  item_layout r item n -> children item = [].
Proof. intro H; inversion H; reflexivity. Qed.

Lemma read_dataset_run_aux (n : nat) :
  forall f, List.length (remaining f) < n ->
  forall ds f', read_dataset f = Ok (ds, f') -> dataset_run f ds f'.
Proof.
  induction n as [|n IH]; intros f Hn ds f' H; [lia|].
  rewrite read_dataset_unfold in H.
  destruct (read_dataset_item f) as [[[item|] f1]|x] eqn:Hi;
    [| |discriminate].
  - pose proof (read_dataset_item_progress _ _ _ Hi) as Hp.
    apply read_dataset_item_some in Hi as [m [Hl ->]].
    destruct (is_length_undefined item) eqn:Hu.
    + destruct (read_dataset (advance m f)) as [[cs f2]|x] eqn:H1;
        [|discriminate].
      pose proof (read_dataset_shrinks _ _ _ H1) as Hs.
      apply IH in H1; [|lia].
      rewrite is_delimiter_add_children in H.
      destruct (is_delimiter item) eqn:Hd.
      * inversion H; subst. now apply run_last_nested with (n := m).
      * destruct (read_dataset f2) as [[rest f3]|x] eqn:H2; [|discriminate].
        apply IH in H2; [|lia].
        inversion H; subst. now apply run_more_nested with (n := m) (f2 := f2).
    + destruct (is_delimiter item) eqn:Hd.
      * inversion H; subst. now apply run_last.
      * destruct (read_dataset (advance m f)) as [[rest f3]|x] eqn:H2;
          [|discriminate].
        apply IH in H2; [|lia].
        inversion H; subst. now apply run_more with (n := m).
  - apply read_dataset_item_none in Hi as [Hr ->].
    inversion H; subst. now apply run_end.
Qed.

(** [dataset_run] describes exactly the calls of [read_dataset] that
    return. *)
Lemma read_dataset_run (f : file) (ds : list DataElement) (f' : file) :
  read_dataset f = Ok (ds, f') <-> dataset_run f ds f'.
Proof.
  split.
  - apply (read_dataset_run_aux (S (List.length (remaining f)))). lia.
  - intro H. induction H as
      [f Hr|f item n Hl Hu Hd|f item n rest f3 Hl Hu Hd Hrest IH
      |f item n cs f2 Hl Hu Hcs IHcs Hd
      |f item n cs f2 rest f3 Hl Hu Hcs IHcs Hd Hrest IHrest];
      rewrite read_dataset_unfold.
    + now rewrite (proj2 (read_dataset_item_none f _) (conj Hr eq_refl)).
    + rewrite (proj2 (read_dataset_item_some f item _)) by eauto.
      now rewrite Hu, Hd.
    + rewrite (proj2 (read_dataset_item_some f item _)) by eauto.
      now rewrite Hu, Hd, IH.
    + rewrite (proj2 (read_dataset_item_some f item _)) by eauto.
      now rewrite Hu, IHcs, is_delimiter_add_children, Hd.
    + rewrite (proj2 (read_dataset_item_some f item _)) by eauto.
      now rewrite Hu, IHcs, is_delimiter_add_children, Hd, IHrest.
Qed.

(** ** The tree that is returned *)

Lemma occurs_in_nil (e : DataElement) : ~ occurs_in e [].
Proof. intro H; inversion H; subst; contradiction. Qed.

Lemma occurs_in_cons (e x : DataElement) (l : list DataElement) :
  occurs_in e (x :: l) <->
  e = x \/ occurs_in e (children x) \/ occurs_in e l.
Proof.
  split.
  - intro H.
    inversion H as [l' Hin|p l' Hin Hc]; subst; destruct Hin as [Hx|Hin];
      subst.
    + now left.
    + right; right. now apply occurs_here.
    + right; now left.
    + right; right. now apply occurs_below with (p := p).
  - intros [->|[H|H]].
    + apply occurs_here. now left.
    + apply occurs_below with (p := x); [now left|assumption].
    + inversion H as [l' Hin|p l' Hin Hc]; subst.
      * apply occurs_here. now right.
      * apply occurs_below with (p := p); [now right|assumption].
Qed.

(** The bytes of the file are never changed. *)
Lemma dataset_run_content f ds f' :
  dataset_run f ds f' -> content f' = content f.
Proof.
  induction 1; rewrite ?content_advance in *; congruence.
Qed.

Lemma dataset_run_shrinks f ds f' :
  dataset_run f ds f' ->
  List.length (remaining f') <= List.length (remaining f).
Proof. intro H. apply read_dataset_run in H. eapply read_dataset_shrinks; eauto. Qed.

(** Every element of the tree was decoded by [read_dataset_item] from the
    same bytes; one of undefined length then received, as its children,
    the result of the nested call on the bytes that follow it. *)
Lemma occurs_in_run f ds f' (e : DataElement) :
  dataset_run f ds f' -> occurs_in e ds ->
  exists g item n,
    content g = content f /\ item_layout (remaining g) item n /\
    ((is_length_undefined item = false /\ e = item) \/
     (is_length_undefined item = true /\ e = add_children item (children e)
      /\ exists g', dataset_run (advance n g) (children e) g')).
Proof.
  induction 1 as
      [f Hr|f item n Hl Hu Hd|f item n rest f3 Hl Hu Hd Hrest IH
      |f item n cs f2 Hl Hu Hcs IHcs Hd
      |f item n cs f2 rest f3 Hl Hu Hcs IHcs Hd Hrest IHrest];
    intro Ho.
  - now apply occurs_in_nil in Ho.
  - apply occurs_in_cons in Ho as [->|[Ho|Ho]].
    + exists f, item, n. auto.
    + rewrite (item_layout_children _ _ _ Hl) in Ho.
      now apply occurs_in_nil in Ho.
    + now apply occurs_in_nil in Ho.
  - apply occurs_in_cons in Ho as [->|[Ho|Ho]].
    + exists f, item, n. auto.
    + rewrite (item_layout_children _ _ _ Hl) in Ho.
      now apply occurs_in_nil in Ho.
    + destruct (IH Ho) as [g [it [m [Hc Hrem]]]].
      exists g, it, m. rewrite Hc, content_advance. auto.
  - pose proof (item_layout_children _ _ _ Hl) as Hch.
    apply occurs_in_cons in Ho as [->|[Ho|Ho]].
    + exists f, item, n. split; [reflexivity|]. split; [assumption|].
      right. cbn [children add_children]. rewrite Hch. cbn [app].
      split; [assumption|]. split; [reflexivity|]. now exists f2.
    + cbn [children add_children] in Ho. rewrite Hch in Ho. cbn [app] in Ho.
      destruct (IHcs Ho) as [g [it [m [Hc Hrem]]]].
      exists g, it, m. rewrite Hc, content_advance. auto.
    + now apply occurs_in_nil in Ho.
  - pose proof (item_layout_children _ _ _ Hl) as Hch.
    apply occurs_in_cons in Ho as [->|[Ho|Ho]].
    + exists f, item, n. split; [reflexivity|]. split; [assumption|].
      right. cbn [children add_children]. rewrite Hch. cbn [app].
      split; [assumption|]. split; [reflexivity|]. now exists f2.
    + cbn [children add_children] in Ho. rewrite Hch in Ho. cbn [app] in Ho.
      destruct (IHcs Ho) as [g [it [m [Hc Hrem]]]].
      exists g, it, m. rewrite Hc, content_advance. auto.
    + destruct (IHrest Ho) as [g [it [m [Hc Hrem]]]].
      exists g, it, m. rewrite Hc.
      rewrite (dataset_run_content _ _ _ Hcs), content_advance. auto.
Qed.


Lemma stored_length_spec (len : N) :
  stored_length len <> Some UNDEFINED_LENGTH /\
  (stored_length len = None <-> len = UNDEFINED_LENGTH) /\
  (len <> UNDEFINED_LENGTH -> stored_length len = Some len).
Proof.
  unfold stored_length.
  destruct (N.eqb_spec len UNDEFINED_LENGTH) as [->|Hne]; cbn [negb].
  - repeat split; congruence.
  - repeat split; congruence.
Qed.


(** What an element with a VR of the 16-bit table looks like. *)
Lemma item_layout_short r (item : DataElement) n vr :
  item_layout r item n -> class_of item = DataElementClass ->
  val_repr item = Some vr -> str_in vr VR_EXPLICIT_16BIT_VLF = true ->
  exists len d,
    (len <= 0xffff)%N /\ val_length item = Some len /\
    val_data item = Some d /\ children item = [] /\
    is_length_undefined item = false.
Proof.
  intros Hl Hc Hvr Hin.
  inversion Hl as [c' len Hr Hc' Hlen|vr' len Hr Hc' Hd Hv Hlen
                   |vr' len Hr Hc' Hd Hv Hlen]; subst; cbn in Hc, Hvr |- *;
    try congruence.
  set (b := take 2 (drop 6 r)).
  pose proof (int_from_bytes_little_bound b) as Hb.
  assert (Hlb : List.length b <= 2)
    by (unfold b; rewrite length_take; lia).
  assert (Hpow : (256 ^ N.of_nat (List.length b) <= 256 ^ 2)%N)
    by (apply N.pow_le_mono_r; lia).
  change (256 ^ 2)%N with 65536%N in Hpow.
  assert (Hne : int_from_bytes_little b <> UNDEFINED_LENGTH)
    by (unfold UNDEFINED_LENGTH; lia).
  exists (int_from_bytes_little b),
         (take (int_from_bytes_little b) (drop 8 r)).
  unfold is_length_undefined, payload; cbn [val_length].
  rewrite (proj2 (proj2 (stored_length_spec _)) Hne).
  apply N.eqb_neq in Hne. rewrite Hne.
  repeat split; try reflexivity. lia.
Qed.

(* ------------------------------------------------------------------ *)
(** ** C1: undefined-length elements and their delimiter *)

Lemma dataset_run_pos f ds f' :
  dataset_run f ds f' -> pos f <= pos f'.
Proof.
  induction 1; rewrite ?pos_advance in *; lia.
Qed.

Lemma is_delimiter_spec (x : DataElement) :
  (is_delimiter x = true <-> is_delimitation x) /\
  (is_delimiter x = false <-> ~ is_delimitation x).
Proof.
  unfold is_delimiter, is_delimitation.
  destruct (class_of x); (split; split; intro H);
    solve [ reflexivity | discriminate H | left; reflexivity
          | right; reflexivity | destruct H as [H|H]; discriminate H
          | intros [K|K]; discriminate K
          | exfalso; apply H; auto ].
Qed.

(** A call stops at the first delimitation element, which is the last
    entry of its result, or it finds none and stops at the end of the
    data. *)
Lemma dataset_run_closed f ds f' :
  dataset_run f ds f' ->
  closed_by_delimiter ds \/ (no_delimiter ds /\ remaining f' = []).
Proof.
  unfold closed_by_delimiter, no_delimiter.
  induction 1 as
      [f Hr|f item n Hl Hu Hd|f item n rest f3 Hl Hu Hd Hrest IH
      |f item n cs f2 Hl Hu Hcs IHcs Hd
      |f item n cs f2 rest f3 Hl Hu Hcs IHcs Hd Hrest IHrest].
  - right. split; [constructor|]. rewrite remaining_advance, Hr. reflexivity.
  - left. exists [], item. apply is_delimiter_spec in Hd. auto.
  - apply is_delimiter_spec in Hd.
    destruct IH as [[init [d [-> [Hdel Hinit]]]]|[Hno He]].
    + left. exists (item :: init), d. auto.
    + right. auto.
  - left. exists [], (add_children item cs).
    rewrite <- is_delimiter_add_children with (cs := cs) in Hd.
    apply is_delimiter_spec in Hd. auto.
  - rewrite <- is_delimiter_add_children with (cs := cs) in Hd.
    apply is_delimiter_spec in Hd.
    destruct IHrest as [[init [d [-> [Hdel Hinit]]]]|[Hno He]].
    + left. exists (add_children item cs :: init), d. auto.
    + right. auto.
Qed.

(** Where an element of the tree was read, and where the nested call for
    its children started and stopped. *)
Lemma occurs_in_run_nested :
  forall f ds f' (e : DataElement),
  dataset_run f ds f' -> occurs_in e ds ->
  exists g item n,
    content g = content f /\ pos f <= pos g /\
    item_layout (remaining g) item n /\
    ((is_length_undefined item = false /\ e = item /\
      pos (advance n g) <= pos f') \/
     (is_length_undefined item = true /\
      e = add_children item (children e) /\
      exists g', dataset_run (advance n g) (children e) g' /\
                 pos g' <= pos f')).
Proof.
  assert (Hadv : forall n f, pos f <= pos (advance n f))
    by (intros n f; rewrite pos_advance; lia).
  intros f ds f' e Hrun. revert e.
  induction Hrun as
      [f Hr|f item n Hl Hu Hd|f item n rest f3 Hl Hu Hd Hrest IH
      |f item n cs f2 Hl Hu Hcs IHcs Hd
      |f item n cs f2 rest f3 Hl Hu Hcs IHcs Hd Hrest IHrest];
    intros e Ho;
    try pose proof (item_layout_children _ _ _ Hl) as Hch;
    try pose proof (dataset_run_pos _ _ _ Hcs) as Hp;
    try pose proof (dataset_run_pos _ _ _ Hrest) as Hp';
    try pose proof (dataset_run_content _ _ _ Hcs) as Hcc;
    try pose proof (Hadv n f) as Hpa;
    rewrite ?content_advance in *;
    [now apply occurs_in_nil in Ho|..];
    apply occurs_in_cons in Ho as [->|[Ho|Ho]];
    cbn [children add_children] in *; rewrite ?Hch in *; cbn [app] in *;
    try (now apply occurs_in_nil in Ho);
    try solve [exists f, item, n;
               split; [reflexivity|]; split; [lia|]; split; [assumption|];
               left; split; [assumption|]; split; [reflexivity|lia]];
    try solve [exists f, item, n;
               split; [reflexivity|]; split; [lia|]; split; [assumption|];
               right; split; [assumption|]; split; [reflexivity|];
               exists f2; split; [assumption|lia]];
    try (destruct (IH _ Ho) as [g [it [m [Hc [Hle [Hli Hcase]]]]]];
         exists g, it, m;
         split; [congruence|]; split; [lia|]; split; [assumption|];
         destruct Hcase as [[K1 [K2 K3]]|[K1 [K2 [g' [K3 K4]]]]];
         [left; split; [assumption|]; split; [assumption|lia]
         |right; split; [assumption|]; split; [assumption|];
          exists g'; split; [assumption|lia]]);
    try (destruct (IHcs _ Ho) as [g [it [m [Hc [Hle [Hli Hcase]]]]]];
         exists g, it, m;
         split; [congruence|]; split; [lia|]; split; [assumption|];
         destruct Hcase as [[K1 [K2 K3]]|[K1 [K2 [g' [K3 K4]]]]];
         [left; split; [assumption|]; split; [assumption|lia]
         |right; split; [assumption|]; split; [assumption|];
          exists g'; split; [assumption|lia]]);
    try (destruct (IHrest _ Ho) as [g [it [m [Hc [Hle [Hli Hcase]]]]]];
         exists g, it, m;
         split; [congruence|]; split; [lia|]; split; [assumption|];
         destruct Hcase as [[K1 [K2 K3]]|[K1 [K2 [g' [K3 K4]]]]];
         [left; split; [assumption|]; split; [assumption|lia]
         |right; split; [assumption|]; split; [assumption|];
          exists g'; split; [assumption|lia]]).
Qed.

(** C1. Whenever [read_dataset] is at an element of undefined length (the
    bytes decode to [item]), the element it returns there has, as its
    children, exactly the result of the nested call of [read_dataset]
    that starts right after the header of the element; the loop goes on
    after that call unless the element is itself a delimitation element.
    The children are not empty and end with an [ItemDelimitationElement]
    or a [SequenceDelimitationElement], the first one that the nested
    call read and therefore the one that ended it, unless the nested call
    read no delimitation element at all and stopped because no byte was
    left. Every element of undefined length of a tree returned by
    [read_dataset] was read in this way at some position of the same
    file. *)
Theorem undefined_length_children_end_with_delimiter :
  (forall (f : file) (item : DataElement) (n : N)
          (ds : list DataElement) (f' : file),
     item_layout (remaining f) item n ->
     is_length_undefined item = true ->
     read_dataset f = Ok (ds, f') ->
     exists cs g' rest,
       read_dataset (advance n f) = Ok (cs, g') /\
       ds = add_children item cs :: rest /\
       children (add_children item cs) = cs /\
       (closed_by_delimiter cs \/ (no_delimiter cs /\ remaining g' = [])) /\
       (is_delimitation item -> rest = [] /\ f' = g') /\
       (~ is_delimitation item -> read_dataset g' = Ok (rest, f'))) /\
  (forall (f : file) (ds : list DataElement) (f' : file) (e : DataElement),
     read_dataset f = Ok (ds, f') ->
     occurs_in e ds ->
     is_length_undefined e = true ->
     exists g item n g',
       content g = content f /\ pos f <= pos g /\ pos g' <= pos f' /\
       item_layout (remaining g) item n /\
       is_length_undefined item = true /\
       e = add_children item (children e) /\
       read_dataset (advance n g) = Ok (children e, g') /\
       (closed_by_delimiter (children e) \/
        (no_delimiter (children e) /\ remaining g' = []))).
Proof.
  split.
  - intros f item n ds f' Hl Hu H.
    rewrite read_dataset_unfold in H.
    rewrite (proj2 (read_dataset_item_some f item _)) in H by eauto.
    rewrite Hu in H.
    destruct (read_dataset (advance n f)) as [[cs g']|x] eqn:Hn;
      [|discriminate].
    exists cs, g'.
    assert (Hch : children (add_children item cs) = cs).
    { cbn [children add_children].
      now rewrite (item_layout_children _ _ _ Hl). }
    assert (Hclosed : closed_by_delimiter cs \/
                      (no_delimiter cs /\ remaining g' = [])).
    { apply read_dataset_run in Hn. now apply dataset_run_closed in Hn. }
    destruct (is_delimiter_spec (add_children item cs)) as [Ht Hf].
    assert (Hsame : is_delimitation (add_children item cs)
                    <-> is_delimitation item) by reflexivity.
    destruct (is_delimiter (add_children item cs)) eqn:Hd.
    + exists []. inversion H; subst.
      split; [reflexivity|]. split; [reflexivity|]. split; [exact Hch|].
      split; [exact Hclosed|]. split; [auto|].
      intro Hno. exfalso. apply Hno, Hsame, Ht. reflexivity.
    + destruct (read_dataset g') as [[rest f3]|x] eqn:Hr; [|discriminate].
      exists rest. inversion H; subst.
      split; [reflexivity|]. split; [reflexivity|]. split; [exact Hch|].
      split; [exact Hclosed|]. split; [|auto].
      intro Hyes. exfalso. apply Hsame, Ht in Hyes. discriminate.
  - intros f ds f' e Hrun Ho Hu. apply read_dataset_run in Hrun.
    destruct (occurs_in_run_nested _ _ _ _ Hrun Ho)
      as [g [item [n [Hc [Hp [Hl [[Hu' [-> _]]
                                  |[Hu' [He [g' [Hnest Hp']]]]]]]]]]].
    + congruence.
    + exists g, item, n, g'.
      split; [exact Hc|]. split; [exact Hp|]. split; [exact Hp'|].
      split; [exact Hl|]. split; [exact Hu'|]. split; [exact He|].
      split; [now apply read_dataset_run|].
      now apply dataset_run_closed in Hnest.
Qed.

Lemma undefined_length_children_end_with_delimiter_witness :
  let f := File example_item 0 in
  let item := ItemDataElement_init UNDEFINED_LENGTH None [] in
  let e := ItemDataElement_init UNDEFINED_LENGTH None
             [example_ul_element;
              ItemDelimitationElement_init 0 (Some []) []] in
  item_layout (remaining f) item 8 /\
  is_length_undefined item = true /\
  read_dataset f = Ok (example_item_tree, File example_item 36) /\
  occurs_in e example_item_tree /\
  is_length_undefined e = true /\
  (exists cs g' rest,
     read_dataset (advance 8 f) = Ok (cs, g') /\
     example_item_tree = add_children item cs :: rest /\
     children (add_children item cs) = cs /\
     (closed_by_delimiter cs \/ (no_delimiter cs /\ remaining g' = [])) /\
     (is_delimitation item -> rest = [] /\ File example_item 36 = g') /\
     (~ is_delimitation item ->
      read_dataset g' = Ok (rest, File example_item 36))) /\
  (exists g it n g',
     content g = content f /\ pos f <= pos g /\ pos g' <= 36 /\
     item_layout (remaining g) it n /\
     is_length_undefined it = true /\
     e = add_children it (children e) /\
     read_dataset (advance n g) = Ok (children e, g') /\
     (closed_by_delimiter (children e) \/
      (no_delimiter (children e) /\ remaining g' = []))).
Proof.
  intros f item e.
  assert (H0 : item_layout (remaining f) item 8).
  { exact (layout_reserved (remaining f) ItemDataElementClass
             UNDEFINED_LENGTH ltac:(discriminate) eq_refl eq_refl). }
  assert (H1 : is_length_undefined item = true) by reflexivity.
  assert (H2 : read_dataset f = Ok (example_item_tree, File example_item 36))
    by (vm_compute; reflexivity).
  assert (H3 : occurs_in e example_item_tree)
    by (apply occurs_here; left; reflexivity).
  assert (H4 : is_length_undefined e = true) by reflexivity.
  split; [exact H0|]. split; [exact H1|]. split; [exact H2|].
  split; [exact H3|]. split; [exact H4|]. split.
  - exact (proj1 undefined_length_children_end_with_delimiter
             f item 8%N _ _ H0 H1 H2).
  - exact (proj2 undefined_length_children_end_with_delimiter
             f _ _ e H2 H3 H4).
Defined.

(* ------------------------------------------------------------------ *)
(** ** C6: the three reserved tags *)



(* ------------------------------------------------------------------ *)
(** ** C7: the stored length *)

(** C7. Each of the four constructors stores [None] for a length equal to
    0xFFFFFFFF and the length itself otherwise, so the stored
    [val_length] is never 0xFFFFFFFF and [is_length_undefined] is true
    exactly when the length given was 0xFFFFFFFF. For an element returned
    by [read_dataset_item] the length given is the value of its length
    field on the wire, and no element of a tree returned by
    [read_dataset] stores 0xFFFFFFFF. *)
Theorem stored_length_never_sentinel :
  (forall t vr len data cs,
     let e := DataElement_init t vr len data cs in
     val_length e <> Some UNDEFINED_LENGTH /\
     (is_length_undefined e = true <-> len = UNDEFINED_LENGTH)) /\
  (forall len data cs,
     let e := ItemDataElement_init len data cs in
     val_length e <> Some UNDEFINED_LENGTH /\
     (is_length_undefined e = true <-> len = UNDEFINED_LENGTH)) /\
  (forall len data cs,
     let e := ItemDelimitationElement_init len data cs in
     val_length e <> Some UNDEFINED_LENGTH /\
     (is_length_undefined e = true <-> len = UNDEFINED_LENGTH)) /\
  (forall len data cs,
     let e := SequenceDelimitationElement_init len data cs in
     val_length e <> Some UNDEFINED_LENGTH /\
     (is_length_undefined e = true <-> len = UNDEFINED_LENGTH)) /\
  (forall f e f',
     read_dataset_item f = Ok (Some e, f') ->
     exists len,
       (len = int_from_bytes_little (take 4 (drop 4 (remaining f))) \/
        len = int_from_bytes_little (take 2 (drop 6 (remaining f))) \/
        len = int_from_bytes_little (take 4 (drop 8 (remaining f)))) /\
       val_length e = stored_length len /\
       val_length e <> Some UNDEFINED_LENGTH /\
       (is_length_undefined e = true <-> len = UNDEFINED_LENGTH)) /\
  (forall f ds f' e,
     read_dataset f = Ok (ds, f') -> occurs_in e ds ->
     val_length e <> Some UNDEFINED_LENGTH).
Proof.
  assert (Hs : forall len o,
             o = stored_length len ->
             o <> Some UNDEFINED_LENGTH /\
             (match o with None => true | Some _ => false end = true
              <-> len = UNDEFINED_LENGTH)).
  { intros len o ->. destruct (stored_length_spec len) as [H1 [H2 H3]].
    split; [assumption|].
    destruct (stored_length len) eqn:E.
    - split; [discriminate|]. intro H. apply H2 in H. discriminate.
    - split; [intros _; now apply H2|reflexivity]. }
  repeat match goal with |- _ /\ _ => split end.
  1-4: intros; subst e; exact (Hs len _ eq_refl).
  - intros f e f' Hi. apply read_dataset_item_some in Hi as [n [Hl _]].
    inversion Hl as [c len Hr Hc Hlen|vr len Hr Hc Hd Hv Hlen
                     |vr len Hr Hc Hd Hv Hlen]; subst;
      eexists; (split; [|split; [reflexivity|exact (Hs _ _ eq_refl)]]);
      tauto.
  - intros f ds f' e Hrun Ho. apply read_dataset_run in Hrun.
    assert (Hl : forall r item n, item_layout r item n ->
                 val_length item <> Some UNDEFINED_LENGTH).
    { intros r item n Hl. inversion Hl; subst; apply stored_length_spec. }
    destruct (occurs_in_run _ _ _ _ Hrun Ho)
      as [g [item [m [_ [Hli [[_ ->]|[_ [He _]]]]]]]].
    + eapply Hl; eauto.
    + rewrite He. cbn [val_length add_children]. eapply Hl; eauto.
Qed.

Lemma stored_length_never_sentinel_witness :
  let f := File (octets [0xfe; 0xff; 0x00; 0xe0; 0xff; 0xff; 0xff; 0xff]) 0 in
  let e := ItemDataElement_init UNDEFINED_LENGTH None [] in
  (val_length e <> Some UNDEFINED_LENGTH /\
   (is_length_undefined e = true <-> UNDEFINED_LENGTH = UNDEFINED_LENGTH)) /\
  (read_dataset_item f = Ok (Some e, File (content f) 8) /\
   exists len,
     (len = int_from_bytes_little (take 4 (drop 4 (remaining f))) \/
      len = int_from_bytes_little (take 2 (drop 6 (remaining f))) \/
      len = int_from_bytes_little (take 4 (drop 8 (remaining f)))) /\
     val_length e = stored_length len /\
     val_length e <> Some UNDEFINED_LENGTH /\
     (is_length_undefined e = true <-> len = UNDEFINED_LENGTH)) /\
  (read_dataset (File example_sequence 0)
   = Ok ([example_sequence_element], File example_sequence 20) /\
   occurs_in example_sequence_element [example_sequence_element] /\
   val_length example_sequence_element <> Some UNDEFINED_LENGTH).
Proof.
  intros f e.
  destruct stored_length_never_sentinel as [_ [K2 [_ [_ [K5 K6]]]]].
  assert (H1 : read_dataset_item f = Ok (Some e, File (content f) 8))
    by (vm_compute; reflexivity).
  assert (H3 : read_dataset (File example_sequence 0)
               = Ok ([example_sequence_element], File example_sequence 20))
    by (vm_compute; reflexivity).
  assert (H4 : occurs_in example_sequence_element [example_sequence_element])
    by (apply occurs_here; left; reflexivity).
  split; [exact (K2 UNDEFINED_LENGTH None [])|].
  split; [split; [exact H1|exact (K5 _ _ _ H1)]|].
  split; [exact H3|]. split; [exact H4|exact (K6 _ _ _ _ H3 H4)].
Defined.

(* ------------------------------------------------------------------ *)
(** ** C9: elements with a 16-bit length field *)

(** C9. In a tree returned by [read_dataset], a plain [DataElement] whose
    VR is in [VR_EXPLICIT_16BIT_VLF] has a length of at most 0xFFFF,
    which is not 0xFFFFFFFF: its length is defined, its value was read
    and it has no children. An element of undefined length is therefore
    an instance of one of the three subclasses or a [DataElement] whose
    VR is outside the table. *)
Theorem short_form_length_is_defined :
  (forall f ds f' (e : DataElement) vr,
     read_dataset f = Ok (ds, f') -> occurs_in e ds ->
     class_of e = DataElementClass ->
     val_repr e = Some vr -> str_in vr VR_EXPLICIT_16BIT_VLF = true ->
     exists len d,
       (len <= 0xffff)%N /\ len <> UNDEFINED_LENGTH /\
       val_length e = Some len /\ val_data e = Some d /\
       children e = [] /\ is_length_undefined e = false) /\
  (forall f ds f' (e : DataElement),
     read_dataset f = Ok (ds, f') -> occurs_in e ds ->
     is_length_undefined e = true ->
     class_of e <> DataElementClass \/
     exists vr, val_repr e = Some vr /\
                str_in vr VR_EXPLICIT_16BIT_VLF = false).
Proof.
  split.
  - intros f ds f' e vr Hrun Ho Hc Hvr Hin. apply read_dataset_run in Hrun.
    destruct (occurs_in_run _ _ _ _ Hrun Ho)
      as [g [item [m [_ [Hl [[_ ->]|[Hu [He _]]]]]]]].
    + destruct (item_layout_short _ _ _ _ Hl Hc Hvr Hin)
        as [len [d [H1 [H2 [H3 [H4 H5]]]]]].
      exists len, d. repeat split; try assumption.
      unfold UNDEFINED_LENGTH; lia.
    + rewrite He in Hc, Hvr. cbn [class_of val_repr add_children] in Hc, Hvr.
      destruct (item_layout_short _ _ _ _ Hl Hc Hvr Hin)
        as [len [d [_ [_ [_ [_ H5]]]]]].
      congruence.
  - intros f ds f' e Hrun Ho Hu. apply read_dataset_run in Hrun.
    destruct (occurs_in_run _ _ _ _ Hrun Ho)
      as [g [item [m [_ [Hl [[Hu' ->]|[Hu' [He _]]]]]]]]; [congruence|].
    rewrite He. cbn [class_of val_repr add_children].
    inversion Hl as [c len Hr Hc Hlen Hitem Hm
                     |vr len Hr Hc Hd Hv Hlen Hitem Hm
                     |vr len Hr Hc Hd Hv Hlen Hitem Hm];
      cbn [class_of val_repr].
    + left. now apply reserved_class_tag in Hc as [Hne _].
    + exfalso.
      assert (Hcl : class_of item = DataElementClass) by now rewrite <- Hitem.
      assert (Hvr : val_repr item = Some vr) by now rewrite <- Hitem.
      destruct (item_layout_short _ _ _ vr Hl Hcl Hvr Hv)
        as [l [d [_ [_ [_ [_ H5]]]]]].
      congruence.
    + right. now exists vr.
Qed.

Lemma short_form_length_is_defined_witness :
  (read_dataset (File example_ul 0)
   = Ok ([example_ul_element], File example_ul 12) /\
   occurs_in example_ul_element [example_ul_element] /\
   class_of example_ul_element = DataElementClass /\
   val_repr example_ul_element = Some (str_of_string "UL") /\
   str_in (str_of_string "UL") VR_EXPLICIT_16BIT_VLF = true /\
   exists len d,
     (len <= 0xffff)%N /\ len <> UNDEFINED_LENGTH /\
     val_length example_ul_element = Some len /\
     val_data example_ul_element = Some d /\
     children example_ul_element = [] /\
     is_length_undefined example_ul_element = false) /\
  (read_dataset (File example_sequence 0)
   = Ok ([example_sequence_element], File example_sequence 20) /\
   occurs_in example_sequence_element [example_sequence_element] /\
   is_length_undefined example_sequence_element = true /\
   (class_of example_sequence_element <> DataElementClass \/
    exists vr, val_repr example_sequence_element = Some vr /\
               str_in vr VR_EXPLICIT_16BIT_VLF = false)).
Proof.
  assert (H1 : read_dataset (File example_ul 0)
               = Ok ([example_ul_element], File example_ul 12))
    by (vm_compute; reflexivity).
  assert (H2 : occurs_in example_ul_element [example_ul_element])
    by (apply occurs_here; left; reflexivity).
  assert (H3 : read_dataset (File example_sequence 0)
               = Ok ([example_sequence_element], File example_sequence 20))
    by (vm_compute; reflexivity).
  assert (H4 : occurs_in example_sequence_element [example_sequence_element])
    by (apply occurs_here; left; reflexivity).
  split.
  - repeat (split; [first [exact H1|exact H2|reflexivity]|]).
    exact (proj1 short_form_length_is_defined _ _ _ _ _ H1 H2
             eq_refl eq_refl eq_refl).
  - repeat (split; [first [exact H3|exact H4|reflexivity]|]).
    exact (proj2 short_form_length_is_defined _ _ _ _ H3 H4 eq_refl).
Defined.

(* ------------------------------------------------------------------ *)
(** ** C3: the number of bytes consumed *)

Lemma item_layout_expected_size r (e : DataElement) n :
  item_layout r e n -> expected_size e = n.
Proof.
  assert (Hp : forall len o, o = stored_length len ->
               match o with Some l => l | None => 0%N end
               = payload_length len).
  { intros len o ->. unfold stored_length, payload_length.
    now destruct (len =? UNDEFINED_LENGTH)%N. }
  intro Hl.
  inversion Hl as [c len Hr Hc Hlen|vr len Hr Hc Hd Hv Hlen
                   |vr len Hr Hc Hd Hv Hlen];
    unfold expected_size, length_or_0; cbn [class_of val_repr val_length];
    rewrite ?Hv, (Hp _ _ eq_refl).
  - destruct c; reflexivity.
  - reflexivity.
  - reflexivity.
Qed.

(** C3. When [read_dataset_item] returns an element, the file position
    has moved forward by at most [expected_size]: 4 + 2 + 2 + length for a
    [DataElement] with a VR of the 16-bit table, 4 + 2 + 6 + length for
    one with another VR, 4 + 4 + length for the three subclasses, an
    undefined length counting as 0. When that many bytes were unread, it
    has moved by exactly that number. *)
Theorem consumed_bytes_match_length_field
    (f : file) (e : DataElement) (f' : file) :
  read_dataset_item f = Ok (Some e, f') ->
  pos f <= pos f' /\
  (N.of_nat (pos f' - pos f) <= expected_size e)%N /\
  ((expected_size e <= N.of_nat (List.length (remaining f)))%N ->
   N.of_nat (pos f' - pos f) = expected_size e).
Proof.
  intro Hi. apply read_dataset_item_some in Hi as [n [Hl ->]].
  rewrite (item_layout_expected_size _ _ _ Hl), pos_advance. lia.
Qed.

Lemma consumed_bytes_match_length_field_witness :
  read_dataset_item (File example_ul 0)
  = Ok (Some example_ul_element, File example_ul 12) /\
  (expected_size example_ul_element
   <= N.of_nat (List.length (remaining (File example_ul 0))))%N /\
  expected_size example_ul_element = (4 + 2 + 2 + 4)%N /\
  N.of_nat (12 - 0) = expected_size example_ul_element.
Proof.
  assert (H1 : read_dataset_item (File example_ul 0)
               = Ok (Some example_ul_element, File example_ul 12))
    by (vm_compute; reflexivity).
  assert (H2 : (expected_size example_ul_element
                <= N.of_nat (List.length (remaining (File example_ul 0))))%N)
    by (apply N.leb_le; reflexivity).
  split; [exact H1|]. split; [exact H2|]. split; [reflexivity|].
  exact (proj2 (proj2 (consumed_bytes_match_length_field _ _ _ H1)) H2).
Defined.

(* ------------------------------------------------------------------ *)
(** ** C4: the width of the length field *)

Lemma tag_of_cons4 (t0 t1 t2 t3 : byte) (r : list byte) :
  tag_of (t0 :: t1 :: t2 :: t3 :: r)
  = Tag (Byte.to_N t0 + 256 * Byte.to_N t1)
        (Byte.to_N t2 + 256 * Byte.to_N t3).
Proof.
  unfold tag_of.
  change (take 4 (t0 :: t1 :: t2 :: t3 :: r))
    with (t0 :: t1 :: t2 :: t3 :: take 0 r).
  cbn [firstn skipn]. now rewrite !int_from_bytes_little_2.
Qed.

(** A VR of the 16-bit table: the two bytes after the VR are the length. *)
Lemma read_short_form (f : file) (t0 t1 t2 t3 v0 v1 l0 l1 : byte)
    (rest : list byte) (vr : str) :
  remaining f = t0 :: t1 :: t2 :: t3 :: v0 :: v1 :: l0 :: l1 :: rest ->
  reserved_class (Tag (Byte.to_N t0 + 256 * Byte.to_N t1)
                      (Byte.to_N t2 + 256 * Byte.to_N t3)) = None ->
  utf8_decode [v0; v1] = Some vr ->
  str_in vr VR_EXPLICIT_16BIT_VLF = true ->
  let len := (Byte.to_N l0 + 256 * Byte.to_N l1)%N in
  exists e f',
    read_dataset_item f = Ok (Some e, f') /\
    class_of e = DataElementClass /\
    val_repr e = Some vr /\
    val_length e = Some len /\
    val_data e = Some (take len rest) /\
    remaining f' = drop len rest.
Proof.
  intros Hr Hc Hd Hv len.
  assert (Hl : item_layout (remaining f)
                 (Element DataElementClass (tag_of (remaining f)) (Some vr)
                    (stored_length len) (payload len (drop 8 (remaining f)))
                    [])
                 (8 + payload_length len)).
  { apply layout_short; rewrite ?Hr; try discriminate.
    - now rewrite tag_of_cons4.
    - exact Hd.
    - exact Hv.
    - change (take 2 (drop 6 (t0 :: t1 :: t2 :: t3 :: v0 :: v1 :: l0 :: l1
                               :: rest))) with (l0 :: l1 :: take 0 rest).
      rewrite take_0. now rewrite int_from_bytes_little_2. }
  assert (Hne : len <> UNDEFINED_LENGTH).
  { pose proof (Byte.to_N_bounded l0). pose proof (Byte.to_N_bounded l1).
    unfold UNDEFINED_LENGTH, len. lia. }
  eexists; eexists. split.
  { apply read_dataset_item_some. eexists; split; [exact Hl|reflexivity]. }
  cbn [class_of val_repr val_length val_data].
  rewrite remaining_advance. unfold payload, payload_length.
  rewrite (proj2 (proj2 (stored_length_spec _)) Hne).
  apply N.eqb_neq in Hne. rewrite Hne, Hr, <- drop_drop.
  change (drop 8 (t0 :: t1 :: t2 :: t3 :: v0 :: v1 :: l0 :: l1 :: rest))
    with (drop 0 rest).
  rewrite drop_0. repeat split; reflexivity.
Qed.

(** Any other VR: two bytes are passed over and the next four are the
    length. *)
Lemma read_long_form (f : file) (t0 t1 t2 t3 v0 v1 z0 z1 l0 l1 l2 l3 : byte)
    (rest : list byte) (vr : str) :
  remaining f = t0 :: t1 :: t2 :: t3 :: v0 :: v1 :: z0 :: z1
                :: l0 :: l1 :: l2 :: l3 :: rest ->
  reserved_class (Tag (Byte.to_N t0 + 256 * Byte.to_N t1)
                      (Byte.to_N t2 + 256 * Byte.to_N t3)) = None ->
  utf8_decode [v0; v1] = Some vr ->
  str_in vr VR_EXPLICIT_16BIT_VLF = false ->
  let len := (Byte.to_N l0 + 256 * Byte.to_N l1 + 65536 * Byte.to_N l2
              + 16777216 * Byte.to_N l3)%N in
  exists e f',
    read_dataset_item f = Ok (Some e, f') /\
    class_of e = DataElementClass /\
    val_repr e = Some vr /\
    val_length e = stored_length len /\
    val_data e = payload len rest /\
    remaining f' = drop (payload_length len) rest.
Proof.
  intros Hr Hc Hd Hv len.
  assert (Hl : item_layout (remaining f)
                 (Element DataElementClass (tag_of (remaining f)) (Some vr)
                    (stored_length len) (payload len (drop 12 (remaining f)))
                    [])
                 (12 + payload_length len)).
  { apply layout_long; rewrite ?Hr; try discriminate.
    - now rewrite tag_of_cons4.
    - exact Hd.
    - exact Hv.
    - change (take 4 (drop 8 (t0 :: t1 :: t2 :: t3 :: v0 :: v1 :: z0 :: z1
                               :: l0 :: l1 :: l2 :: l3 :: rest)))
        with (l0 :: l1 :: l2 :: l3 :: take 0 rest).
      rewrite take_0. now rewrite int_from_bytes_little_4. }
  eexists; eexists. split.
  { apply read_dataset_item_some. eexists; split; [exact Hl|reflexivity]. }
  cbn [class_of val_repr val_length val_data].
  rewrite remaining_advance, Hr, <- drop_drop.
  change (drop 12 (t0 :: t1 :: t2 :: t3 :: v0 :: v1 :: z0 :: z1
                   :: l0 :: l1 :: l2 :: l3 :: rest))
    with (drop 0 rest).
  rewrite drop_0. repeat split; reflexivity.
Qed.

(** C4. [VR_EXPLICIT_16BIT_VLF] holds the 21 codes AE, AS, AT, CS, DA, DS,
    DT, FL, FD, IS, LO, LT, PN, SH, SL, SS, ST, TM, UI, UL, US. For an
    element with an unreserved tag whose VR is in the table, the length
    is the little-endian value of the two bytes right after the VR and
    the value follows them; for any other VR the two bytes after the VR
    are passed over, the length is the little-endian value of the next
    four bytes and the value follows those. VR UI with length bytes 04 00
    gives length 4, and VR OB with bytes 00 00 04 00 00 00 gives
    length 4. *)
Theorem length_field_width_follows_vr :
  (VR_EXPLICIT_16BIT_VLF
   = map str_of_string
       ["AE"; "AS"; "AT"; "CS"; "DA"; "DS"; "DT"; "FL"; "FD"; "IS"; "LO";
        "LT"; "PN"; "SH"; "SL"; "SS"; "ST"; "TM"; "UI"; "UL"; "US"]%string
   /\ List.length VR_EXPLICIT_16BIT_VLF = 21) /\
  (forall (f : file) (t0 t1 t2 t3 v0 v1 l0 l1 : byte) (rest : list byte)
          (vr : str),
     remaining f = t0 :: t1 :: t2 :: t3 :: v0 :: v1 :: l0 :: l1 :: rest ->
     reserved_class (Tag (Byte.to_N t0 + 256 * Byte.to_N t1)
                         (Byte.to_N t2 + 256 * Byte.to_N t3)) = None ->
     utf8_decode [v0; v1] = Some vr ->
     str_in vr VR_EXPLICIT_16BIT_VLF = true ->
     let len := (Byte.to_N l0 + 256 * Byte.to_N l1)%N in
     exists e f',
       read_dataset_item f = Ok (Some e, f') /\
       class_of e = DataElementClass /\
       val_repr e = Some vr /\
       val_length e = Some len /\
       val_data e = Some (take len rest) /\
       remaining f' = drop len rest) /\
  (forall (f : file) (t0 t1 t2 t3 v0 v1 z0 z1 l0 l1 l2 l3 : byte)
          (rest : list byte) (vr : str),
     remaining f = t0 :: t1 :: t2 :: t3 :: v0 :: v1 :: z0 :: z1
                   :: l0 :: l1 :: l2 :: l3 :: rest ->
     reserved_class (Tag (Byte.to_N t0 + 256 * Byte.to_N t1)
                         (Byte.to_N t2 + 256 * Byte.to_N t3)) = None ->
     utf8_decode [v0; v1] = Some vr ->
     str_in vr VR_EXPLICIT_16BIT_VLF = false ->
     let len := (Byte.to_N l0 + 256 * Byte.to_N l1 + 65536 * Byte.to_N l2
                 + 16777216 * Byte.to_N l3)%N in
     exists e f',
       read_dataset_item f = Ok (Some e, f') /\
       class_of e = DataElementClass /\
       val_repr e = Some vr /\
       val_length e = stored_length len /\
       val_data e = payload len rest /\
       remaining f' = drop (payload_length len) rest) /\
  (forall rest : list byte,
     exists e f',
       read_dataset_item
         (File (octets [0x08; 0x00; 0x18; 0x00; 0x55; 0x49; 0x04; 0x00]
                ++ rest) 0)
       = Ok (Some e, f') /\
       val_repr e = Some (str_of_string "UI") /\
       val_length e = Some 4%N /\
       val_data e = Some (take 4 rest)) /\
  (forall rest : list byte,
     exists e f',
       read_dataset_item
         (File (octets [0xe0; 0x7f; 0x10; 0x00; 0x4f; 0x42; 0x00; 0x00;
                        0x04; 0x00; 0x00; 0x00] ++ rest) 0)
       = Ok (Some e, f') /\
       val_repr e = Some (str_of_string "OB") /\
       val_length e = Some 4%N /\
       val_data e = Some (take 4 rest)).
Proof.
  split; [split; reflexivity|].
  split; [exact read_short_form|].
  split; [exact read_long_form|].
  split; intro rest.
  - destruct (read_short_form
                (File (octets [0x08; 0x00; 0x18; 0x00; 0x55; 0x49; 0x04; 0x00]
                       ++ rest) 0)
                _ _ _ _ _ _ _ _ rest (str_of_string "UI")
                eq_refl eq_refl eq_refl eq_refl)
      as [e [f' [H1 [_ [H2 [H3 [H4 _]]]]]]].
    exists e, f'. auto.
  - destruct (read_long_form
                (File (octets [0xe0; 0x7f; 0x10; 0x00; 0x4f; 0x42; 0x00; 0x00;
                               0x04; 0x00; 0x00; 0x00] ++ rest) 0)
                _ _ _ _ _ _ _ _ _ _ _ _ rest (str_of_string "OB")
                eq_refl eq_refl eq_refl eq_refl)
      as [e [f' [H1 [_ [H2 [H3 [H4 _]]]]]]].
    exists e, f'. auto.
Qed.

Lemma length_field_width_follows_vr_witness :
  (remaining (File example_ul 0)
   = octets [0x08; 0x00; 0x00; 0x00; 0x55; 0x4c; 0x04; 0x00]
     ++ octets [0x01; 0x02; 0x03; 0x04] /\
   utf8_decode (octets [0x55; 0x4c]) = Some (str_of_string "UL") /\
   str_in (str_of_string "UL") VR_EXPLICIT_16BIT_VLF = true /\
   exists e f',
     read_dataset_item (File example_ul 0) = Ok (Some e, f') /\
     class_of e = DataElementClass /\
     val_repr e = Some (str_of_string "UL") /\
     val_length e = Some 4%N /\
     val_data e = Some (octets [0x01; 0x02; 0x03; 0x04]) /\
     remaining f' = []) /\
  (let b := octets [0xe0; 0x7f; 0x10; 0x00; 0x4f; 0x42; 0x00; 0x00;
                    0x02; 0x00; 0x00; 0x00; 0x0a; 0x0b] in
   utf8_decode (octets [0x4f; 0x42]) = Some (str_of_string "OB") /\
   str_in (str_of_string "OB") VR_EXPLICIT_16BIT_VLF = false /\
   exists e f',
     read_dataset_item (File b 0) = Ok (Some e, f') /\
     class_of e = DataElementClass /\
     val_repr e = Some (str_of_string "OB") /\
     val_length e = Some 2%N /\
     val_data e = Some (octets [0x0a; 0x0b]) /\
     remaining f' = []).
Proof.
  destruct length_field_width_follows_vr as [_ [Hshort [Hlong _]]].
  split.
  - split; [reflexivity|]. split; [reflexivity|]. split; [reflexivity|].
    exact (Hshort (File example_ul 0) _ _ _ _ _ _ _ _
             (octets [0x01; 0x02; 0x03; 0x04]) (str_of_string "UL")
             eq_refl eq_refl eq_refl eq_refl).
  - intro b. split; [reflexivity|]. split; [reflexivity|].
    exact (Hlong (File b 0) _ _ _ _ _ _ _ _ _ _ _ _
             (octets [0x0a; 0x0b]) (str_of_string "OB")
             eq_refl eq_refl eq_refl eq_refl).
Defined.

(* ------------------------------------------------------------------ *)
(** ** C2: input that ends early *)





(* ------------------------------------------------------------------ *)
(** ** C5: the magic bytes *)

Lemma bytes_eqb_eq (a b : list byte) : bytes_eqb a b = true <-> a = b.
Proof.
  unfold bytes_eqb. destruct (list_eq_dec Byte.byte_eq_dec a b); split;
    congruence.
Qed.

(** A file with the right magic bytes from which no [DICOM] value is
    returned. *)
Lemma load_can_fail_after_magic :
  take 4 (drop 128 example_bad_vr_file) = bytes_of_string "DICM" /\
  load (fun _ => Some example_bad_vr_file) "a.dcm" = Raise UnicodeDecodeError.
Proof. split; vm_compute; reflexivity. Qed.

(** C5, as the code has it. When the four bytes at offset 128 of the file
    are not [DICM] (or are not all there), [load] raises
    [InvalidDICOMFileException] and returns no [DICOM] value. When they
    are [DICM], [load] reads the dataset from offset 132 on, and when
    [read_dataset] returns, [load] returns a [DICOM] value with the path,
    the first 128 bytes of the file as the preamble and the dataset
    read. *)
Theorem load_checks_magic (fs : filesystem) (p : string) (bytes : list byte) :
  fs p = Some bytes ->
  (take 4 (drop 128 bytes) <> bytes_of_string "DICM" ->
   load fs p = Raise (InvalidDICOMFileException "invalid magic header")) /\
  (take 4 (drop 128 bytes) = bytes_of_string "DICM" ->
   forall ds f',
     read_dataset (File bytes 132) = Ok (ds, f') ->
     load fs p = Ok (Build_DICOM p (take 128 bytes) ds) /\
     List.length (take 128 bytes) = 128 /\
     take 128 bytes ++ bytes_of_string "DICM" ++ remaining (File bytes 132)
     = bytes).
Proof.
  intro Hfs. unfold load. rewrite Hfs.
  cbv beta iota delta [bind read ret raise].
  rewrite remaining_advance, advance_advance.
  change (remaining (File bytes 0)) with bytes.
  split; intro Hm.
  - destruct (bytes_eqb (take 4 (drop 128 bytes)) (bytes_of_string "DICM"))
      eqn:E; [|reflexivity].
    apply bytes_eqb_eq in E. contradiction.
  - intros ds f' Hds.
    assert (Hlen : 132 <= List.length bytes).
    { assert (H4 : List.length (take 4 (drop 128 bytes)) = 4)
        by now rewrite Hm.
      rewrite length_take, length_drop in H4. lia. }
    rewrite (proj2 (bytes_eqb_eq _ _) Hm). cbn [negb].
    change (128 + 4)%N with 132%N.
    rewrite advance_start by lia.
    change (N.to_nat 132) with 132. rewrite Hds.
    split; [reflexivity|]. split.
    + rewrite length_take. lia.
    + unfold remaining; cbn [pos content].
      rewrite <- Hm, !drop_skipn, !take_firstn.
      change (N.to_nat 128) with 128. change (N.to_nat 4) with 4.
      change 132 with (4 + 128). rewrite <- skipn_skipn.
      rewrite (firstn_skipn 4 (skipn 128 bytes)). apply firstn_skipn.
Qed.

Lemma load_checks_magic_witness :
  (take 4 (drop 128 example_bad_magic_file) <> bytes_of_string "DICM" /\
   load (fun _ => Some example_bad_magic_file) "a.dcm"
   = Raise (InvalidDICOMFileException "invalid magic header")) /\
  (take 4 (drop 128 example_file) = bytes_of_string "DICM" /\
   read_dataset (File example_file 132)
   = Ok ([example_ul_element], File example_file 144) /\
   load (fun _ => Some example_file) "a.dcm"
   = Ok (Build_DICOM "a.dcm" (take 128 example_file) [example_ul_element]) /\
   List.length (take 128 example_file) = 128 /\
   take 128 example_file ++ bytes_of_string "DICM"
   ++ remaining (File example_file 132) = example_file).
Proof.
  assert (H1 : take 4 (drop 128 example_bad_magic_file)
               <> bytes_of_string "DICM") by (vm_compute; discriminate).
  assert (H2 : take 4 (drop 128 example_file) = bytes_of_string "DICM")
    by (vm_compute; reflexivity).
  assert (H3 : read_dataset (File example_file 132)
               = Ok ([example_ul_element], File example_file 144))
    by (vm_compute; reflexivity).
  split.
  - split; [exact H1|].
    exact (proj1 (load_checks_magic (fun _ => Some example_bad_magic_file)
                    "a.dcm" _ eq_refl) H1).
  - split; [exact H2|]. split; [exact H3|].
    exact (proj2 (load_checks_magic (fun _ => Some example_file)
                    "a.dcm" _ eq_refl) H2 _ _ H3).
Defined.

(* ------------------------------------------------------------------ *)
(** ** C8: determinism *)

(** The element read depends on the unread bytes only. *)
Lemma read_dataset_item_agree (f1 f2 : file) :
  remaining f1 = remaining f2 ->
  agree (read_dataset_item f1) (read_dataset_item f2).
Proof.
  intro H. rewrite !read_dataset_item_eq; cbv zeta. rewrite <- H.
  assert (Ha : forall n, remaining (advance n f1) = remaining (advance n f2))
    by (intro n; now rewrite !remaining_advance, H).
  destruct (is_empty (take 4 (remaining f1))); [now split|].
  destruct (reserved_class (tag_of (remaining f1))); [now split|].
  destruct (utf8_decode (take 2 (drop 4 (remaining f1)))) as [vr|];
    [|reflexivity].
  destruct (str_in vr VR_EXPLICIT_16BIT_VLF); now split.
Qed.

Lemma read_dataset_agree_aux (n : nat) :
  forall f1 f2, List.length (remaining f1) < n ->
  remaining f1 = remaining f2 ->
  agree (read_dataset f1) (read_dataset f2).
Proof.
  induction n as [|n IH]; intros f1 f2 Hn H; [lia|].
  rewrite (read_dataset_unfold f1), (read_dataset_unfold f2).
  pose proof (read_dataset_item_agree f1 f2 H) as Hi.
  destruct (read_dataset_item f1) as [[[i1|] g1]|x1] eqn:E1;
    destruct (read_dataset_item f2) as [[[i2|] g2]|x2] eqn:E2;
    cbn [agree] in Hi; try contradiction;
    try (exfalso; destruct Hi; discriminate).
  - destruct Hi as [Hi Hg]. injection Hi as <-.
    pose proof (read_dataset_item_progress _ _ _ E1) as Hp.
    destruct (is_length_undefined i1).
    + assert (Hc : agree (read_dataset g1) (read_dataset g2))
        by (apply IH; [lia|assumption]).
      destruct (read_dataset g1) as [[cs1 h1]|y1] eqn:R1;
        destruct (read_dataset g2) as [[cs2 h2]|y2] eqn:R2;
        cbn [agree] in Hc; try contradiction; [|assumption].
      destruct Hc as [<- Hh].
      apply read_dataset_shrinks in R1.
      destruct (is_delimiter (add_children i1 cs1)); [now split|].
      assert (Hc : agree (read_dataset h1) (read_dataset h2))
        by (apply IH; [lia|assumption]).
      destruct (read_dataset h1) as [[r1 k1]|y1];
        destruct (read_dataset h2) as [[r2 k2]|y2];
        cbn [agree] in Hc |- *; try contradiction; [|assumption].
      destruct Hc as [<- Hk]. now split.
    + destruct (is_delimiter i1); [now split|].
      assert (Hc : agree (read_dataset g1) (read_dataset g2))
        by (apply IH; [lia|assumption]).
      destruct (read_dataset g1) as [[r1 k1]|y1];
        destruct (read_dataset g2) as [[r2 k2]|y2];
        cbn [agree] in Hc |- *; try contradiction; [|assumption].
      destruct Hc as [<- Hk]. now split.
  - destruct Hi as [_ Hg]. now split.
  - assumption.
Qed.

(** C8. [read_dataset] on two files with the same unread bytes returns the
    same tree and leaves the same bytes unread, or raises the same
    exception on both; and it never changes the bytes of a file it reads,
    only the position. *)
Theorem parsing_is_deterministic (f1 f2 : file) :
  remaining f1 = remaining f2 ->
  agree (read_dataset f1) (read_dataset f2) /\
  (forall ds f1', read_dataset f1 = Ok (ds, f1') -> content f1' = content f1) /\
  (forall ds f2', read_dataset f2 = Ok (ds, f2') -> content f2' = content f2).
Proof.
  intro H. split; [|split].
  - apply (read_dataset_agree_aux (S (List.length (remaining f1)))); [lia|].
    assumption.
  - intros ds f1' Hr. apply read_dataset_run in Hr.
    now apply dataset_run_content in Hr.
  - intros ds f2' Hr. apply read_dataset_run in Hr.
    now apply dataset_run_content in Hr.
Qed.

Lemma parsing_is_deterministic_witness :
  let f1 := File example_sequence 0 in
  let f2 := File (example_ul ++ example_sequence) 12 in
  remaining f1 = remaining f2 /\
  read_dataset f1 = Ok ([example_sequence_element], File example_sequence 20) /\
  read_dataset f2
  = Ok ([example_sequence_element], File (example_ul ++ example_sequence) 32) /\
  agree (read_dataset f1) (read_dataset f2) /\
  (forall ds f1', read_dataset f1 = Ok (ds, f1') -> content f1' = content f1) /\
  (forall ds f2', read_dataset f2 = Ok (ds, f2') -> content f2' = content f2).
Proof.
  intros f1 f2.
  assert (H : remaining f1 = remaining f2) by reflexivity.
  split; [exact H|].
  split; [vm_compute; reflexivity|].
  split; [vm_compute; reflexivity|].
  exact (parsing_is_deterministic f1 f2 H).
Defined.

(* ------------------------------------------------------------------ *)
(** ** C10: [find_elements_by_tag] *)

Lemma ElementTag_eq_true (a b : ElementTag) :
  ElementTag_eq a b = true <-> a = b.
Proof.
  destruct a as [g1 e1], b as [g2 e2]. unfold ElementTag_eq; cbn [group elem].
  destruct (N.eqb_spec g1 g2), (N.eqb_spec e1 e2); cbn [negb orb];
    split; congruence.
Qed.

Lemma find_loop_filter (t : ElementTag) (l acc : list DataElement) :
  fold_left
    (fun elements item =>
       if ElementTag_eq (tag item) t then elements ++ [item] else elements)
    l acc
  = acc ++ filter (fun item => ElementTag_eq (tag item) t) l.
Proof.
  revert acc. induction l as [|x l IH]; intro acc; cbn [fold_left filter].
  - now rewrite app_nil_r.
  - rewrite IH. destruct (ElementTag_eq (tag x) t); [|reflexivity].
    now rewrite <- app_assoc.
Qed.

(** C10. [find_elements_by_tag] returns the entries of the top-level
    dataset whose tag equals the given tag, in the order of the dataset,
    and nothing else: an element that only occurs among the children of
    some element is not returned, as with the delimiter inside
    [example_sequence_element]. *)
Theorem find_elements_by_tag_is_top_level :
  (forall (d : DICOM) (t : ElementTag),
     find_elements_by_tag d t
     = filter (fun item => ElementTag_eq (tag item) t) (dataset d)) /\
  (forall (d : DICOM) (t : ElementTag) (e : DataElement),
     In e (find_elements_by_tag d t) <-> In e (dataset d) /\ tag e = t) /\
  (forall (d : DICOM) (t : ElementTag) (e : DataElement),
     occurs_in e (dataset d) -> ~ In e (dataset d) ->
     ~ In e (find_elements_by_tag d t)) /\
  (let d := Build_DICOM "a.dcm" [] [example_sequence_element] in
   let delimiter := SequenceDelimitationElement_init 0 (Some []) [] in
   occurs_in delimiter (dataset d) /\
   tag delimiter = Tag 0xfffe 0xe0dd /\
   find_elements_by_tag d (Tag 0xfffe 0xe0dd) = []).
Proof.
  assert (H1 : forall d t,
             find_elements_by_tag d t
             = filter (fun item => ElementTag_eq (tag item) t) (dataset d)).
  { intros d t. unfold find_elements_by_tag. now rewrite find_loop_filter. }
  assert (H2 : forall d t e,
             In e (find_elements_by_tag d t) <-> In e (dataset d) /\ tag e = t).
  { intros d t e. rewrite H1, filter_In, ElementTag_eq_true. reflexivity. }
  split; [exact H1|]. split; [exact H2|]. split.
  - intros d t e _ Hn Hin. apply H2 in Hin. tauto.
  - split; [|split; reflexivity].
    apply occurs_below with (p := example_sequence_element);
      [left; reflexivity|apply occurs_here; left; reflexivity].
Qed.

Lemma find_elements_by_tag_is_top_level_witness :
  let d := Build_DICOM "a.dcm" [] [example_sequence_element; example_ul_element] in
  let delimiter := SequenceDelimitationElement_init 0 (Some []) [] in
  (In example_ul_element (dataset d) /\
   tag example_ul_element = Tag 0x0008 0x0000 /\
   In example_ul_element (find_elements_by_tag d (Tag 0x0008 0x0000))) /\
  (occurs_in delimiter (dataset d) /\
   ~ In delimiter (dataset d) /\
   ~ In delimiter (find_elements_by_tag d (Tag 0xfffe 0xe0dd))).
Proof.
  intros d delimiter.
  destruct find_elements_by_tag_is_top_level as [_ [K2 [K3 _]]].
  assert (H1 : In example_ul_element (dataset d))
    by (right; left; reflexivity).
  assert (H2 : occurs_in delimiter (dataset d)).
  { apply occurs_below with (p := example_sequence_element);
      [left; reflexivity|apply occurs_here; left; reflexivity]. }
  assert (H3 : ~ In delimiter (dataset d)).
  { intros [H|[H|H]]; [discriminate H|discriminate H|exact H]. }
  split.
  - split; [exact H1|]. split; [reflexivity|].
    exact (proj2 (K2 d (Tag 0x0008 0x0000) example_ul_element)
             (conj H1 eq_refl)).
  - split; [exact H2|]. split; [exact H3|].
    exact (K3 d (Tag 0xfffe 0xe0dd) delimiter H2 H3).
Defined.

(* ================================================================== *)
(** * Further properties of the decoder *)

(** ** Positions *)

Lemma length_remaining (f : file) :
  List.length (remaining f) = List.length (content f) - pos f.
Proof. unfold remaining. apply length_skipn. Qed.

Lemma tree_size_unfold (e : DataElement) :
  tree_size e
  = (expected_size e + forest_size (children e))%N.
Proof. destruct e; reflexivity. Qed.

Lemma expected_size_add_children (item : DataElement) cs :
  expected_size (add_children item cs) = expected_size item.
Proof. reflexivity. Qed.

Lemma tree_size_item r (item : DataElement) n :
  item_layout r item n -> tree_size item = n.
Proof.
  intro Hl. rewrite tree_size_unfold, (item_layout_children _ _ _ Hl).
  rewrite (item_layout_expected_size _ _ _ Hl). cbn. lia.
Qed.

Lemma tree_size_nested r (item : DataElement) n cs :
  item_layout r item n ->
  tree_size (add_children item cs) = (n + forest_size cs)%N.
Proof.
  intro Hl. rewrite tree_size_unfold, expected_size_add_children.
  cbn [children add_children].
  rewrite (item_layout_children _ _ _ Hl), (item_layout_expected_size _ _ _ Hl).
  reflexivity.
Qed.

Lemma dataset_run_consumed f ds f' :
  dataset_run f ds f' ->
  pos f <= pos f' /\
  (N.of_nat (pos f' - pos f) <= forest_size ds)%N /\
  ((forest_size ds <= N.of_nat (List.length (content f) - pos f))%N ->
   N.of_nat (pos f' - pos f) = forest_size ds).
Proof.
  induction 1 as
      [f Hr|f item n Hl Hu Hd|f item n rest f3 Hl Hu Hd Hrest IH
      |f item n cs f2 Hl Hu Hcs IHcs Hd
      |f item n cs f2 rest f3 Hl Hu Hcs IHcs Hd Hrest IHrest].
  - rewrite pos_advance, Hr. change (forest_size []) with 0%N.
    cbn [List.length]. lia.
  - change (forest_size [item]) with (tree_size item + 0)%N.
    rewrite (tree_size_item _ _ _ Hl), pos_advance, length_remaining. lia.
  - change (forest_size (item :: rest))
      with (tree_size item + forest_size rest)%N.
    rewrite (tree_size_item _ _ _ Hl).
    rewrite content_advance, pos_advance, length_remaining in IH. lia.
  - change (forest_size [add_children item cs])
      with (tree_size (add_children item cs) + 0)%N.
    rewrite (tree_size_nested _ _ _ cs Hl).
    rewrite content_advance, pos_advance, length_remaining in IHcs. lia.
  - change (forest_size (add_children item cs :: rest))
      with (tree_size (add_children item cs) + forest_size rest)%N.
    rewrite (tree_size_nested _ _ _ cs Hl).
    pose proof (dataset_run_content _ _ _ Hcs) as Hc2.
    rewrite content_advance in Hc2. rewrite Hc2 in IHrest.
    rewrite content_advance, pos_advance, length_remaining in IHcs. lia.
Qed.

(** X1. When [read_dataset] returns, the position has moved forward by at
    most the bytes that the fields of all the elements of the tree
    announce, and by exactly that number when that many bytes were
    unread: every byte read belongs to exactly one element. *)
Theorem consumed_bytes_cover_tree
    (f : file) (ds : list DataElement) (f' : file) :
  read_dataset f = Ok (ds, f') ->
  pos f <= pos f' /\
  (N.of_nat (pos f' - pos f) <= forest_size ds)%N /\
  ((forest_size ds <= N.of_nat (List.length (remaining f)))%N ->
   N.of_nat (pos f' - pos f) = forest_size ds).
Proof.
  intro H. apply read_dataset_run in H. rewrite length_remaining.
  now apply dataset_run_consumed.
Qed.

Lemma consumed_bytes_cover_tree_witness :
  read_dataset (File example_item 0)
  = Ok (example_item_tree, File example_item 36) /\
  forest_size example_item_tree = 36%N /\
  (forest_size example_item_tree
   <= N.of_nat (List.length (remaining (File example_item 0))))%N /\
  N.of_nat (36 - 0) = forest_size example_item_tree.
Proof.
  assert (H1 : read_dataset (File example_item 0)
               = Ok (example_item_tree, File example_item 36))
    by (vm_compute; reflexivity).
  assert (H2 : (forest_size example_item_tree
                <= N.of_nat (List.length (remaining (File example_item 0))))%N)
    by (apply N.leb_le; vm_compute; reflexivity).
  split; [exact H1|]. split; [vm_compute; reflexivity|]. split; [exact H2|].
  exact (proj2 (proj2 (consumed_bytes_cover_tree _ _ _ H1)) H2).
Defined.

(** ** What is left unread *)

Lemma advance_split (n : N) (f : file) :
  remaining f = take n (remaining f) ++ remaining (advance n f) /\
  List.length (take n (remaining f)) = pos (advance n f) - pos f.
Proof.
  rewrite remaining_advance, take_drop, pos_advance, length_take.
  split; [reflexivity|lia].
Qed.

Lemma dataset_run_suffix :
  forall f ds f',
  dataset_run f ds f' ->
  exists consumed,
    remaining f = consumed ++ remaining f' /\
    List.length consumed = pos f' - pos f.
Proof.
  assert (Hcomp : forall f f1 f2 c1 c2,
             pos f <= pos f1 -> pos f1 <= pos f2 ->
             remaining f = c1 ++ remaining f1 ->
             List.length c1 = pos f1 - pos f ->
             remaining f1 = c2 ++ remaining f2 ->
             List.length c2 = pos f2 - pos f1 ->
             exists c, remaining f = c ++ remaining f2 /\
                       List.length c = pos f2 - pos f).
  { intros f f1 f2 c1 c2 Hp1 Hp2 H1 L1 H2 L2. exists (c1 ++ c2).
    rewrite H1, H2, <- app_assoc, length_app. split; [reflexivity|lia]. }
  assert (Hadv : forall n f, pos f <= pos (advance n f))
    by (intros n f; rewrite pos_advance; lia).
  induction 1 as
      [f Hr|f item n Hl Hu Hd|f item n rest f3 Hl Hu Hd Hrest IH
      |f item n cs f2 Hl Hu Hcs IHcs Hd
      |f item n cs f2 rest f3 Hl Hu Hcs IHcs Hd Hrest IHrest].
  - exists (take 4 (remaining f)). apply advance_split.
  - exists (take n (remaining f)). apply advance_split.
  - destruct IH as [c2 [H2 L2]].
    destruct (advance_split n f) as [H1 L1].
    eapply Hcomp; eauto using dataset_run_pos.
  - destruct IHcs as [c2 [H2 L2]].
    destruct (advance_split n f) as [H1 L1].
    eapply Hcomp; eauto using dataset_run_pos.
  - destruct IHcs as [c2 [H2 L2]]. destruct IHrest as [c3 [H3 L3]].
    destruct (advance_split n f) as [H1 L1].
    destruct (Hcomp f (advance n f) f2 _ _ (Hadv n f)
                (dataset_run_pos _ _ _ Hcs) H1 L1 H2 L2) as [c [H4 L4]].
    pose proof (dataset_run_pos _ _ _ Hcs) as Hp2.
    pose proof (dataset_run_pos _ _ _ Hrest) as Hp3.
    specialize (Hadv n f).
    apply (Hcomp f f2 f3 c c3); try assumption. lia.
Qed.

(** X2. Reading only moves forward over the bytes of the file: after
    [read_dataset_item] and after [read_dataset] the bytes of the file are
    the same, and the unread bytes are what was unread before without a
    prefix whose length is the distance the position has moved. *)
Theorem unread_bytes_are_a_suffix :
  (forall f o f',
     read_dataset_item f = Ok (o, f') ->
     content f' = content f /\
     exists consumed,
       remaining f = consumed ++ remaining f' /\
       List.length consumed = pos f' - pos f) /\
  (forall f ds f',
     read_dataset f = Ok (ds, f') ->
     content f' = content f /\
     exists consumed,
       remaining f = consumed ++ remaining f' /\
       List.length consumed = pos f' - pos f).
Proof.
  split.
  - intros f [e|] f' H.
    + apply read_dataset_item_some in H as [n [_ ->]].
      split; [apply content_advance|].
      exists (take n (remaining f)). apply advance_split.
    + apply read_dataset_item_none in H as [_ ->].
      split; [apply content_advance|].
      exists (take 4 (remaining f)). apply advance_split.
  - intros f ds f' H. apply read_dataset_run in H. split.
    + now apply dataset_run_content in H.
    + now apply dataset_run_suffix with (ds := ds).
Qed.

Lemma unread_bytes_are_a_suffix_witness :
  (read_dataset_item (File example_ul 0)
   = Ok (Some example_ul_element, File example_ul 12) /\
   exists consumed,
     remaining (File example_ul 0)
     = consumed ++ remaining (File example_ul 12) /\
     List.length consumed = 12 - 0) /\
  (read_dataset (File example_item 0)
   = Ok (example_item_tree, File example_item 36) /\
   exists consumed,
     remaining (File example_item 0)
     = consumed ++ remaining (File example_item 36) /\
     List.length consumed = 36 - 0).
Proof.
  assert (H1 : read_dataset_item (File example_ul 0)
               = Ok (Some example_ul_element, File example_ul 12))
    by (vm_compute; reflexivity).
  assert (H2 : read_dataset (File example_item 0)
               = Ok (example_item_tree, File example_item 36))
    by (vm_compute; reflexivity).
  split.
  - split; [exact H1|].
    exact (proj2 (proj1 unread_bytes_are_a_suffix _ _ _ H1)).
  - split; [exact H2|].
    exact (proj2 (proj2 unread_bytes_are_a_suffix _ _ _ H2)).
Defined.

(** ** The size and the shape of the tree *)

Lemma count_elements_unfold (e : DataElement) :
  count_elements e = S (count_all (children e)).
Proof. destruct e; reflexivity. Qed.

Lemma dataset_run_count :
  forall f ds f',
  dataset_run f ds f' -> count_all ds <= pos f' - pos f.
Proof.
  assert (Hstep : forall f item n,
             item_layout (remaining f) item n ->
             pos f + 1 <= pos (advance n f)).
  { intros f item n Hl. apply item_layout_progress in Hl as [Hr Hn].
    rewrite pos_advance. destruct (remaining f); [congruence|].
    cbn [List.length]. lia. }
  assert (Hone : forall r (item : DataElement) n,
             item_layout r item n -> count_elements item = 1).
  { intros r item n Hl. rewrite count_elements_unfold.
    now rewrite (item_layout_children _ _ _ Hl). }
  assert (Hnest : forall r (item : DataElement) n cs,
             item_layout r item n ->
             count_elements (add_children item cs) = S (count_all cs)).
  { intros r item n cs Hl. rewrite count_elements_unfold.
    cbn [children add_children].
    now rewrite (item_layout_children _ _ _ Hl). }
  induction 1 as
      [f Hr|f item n Hl Hu Hd|f item n rest f3 Hl Hu Hd Hrest IH
      |f item n cs f2 Hl Hu Hcs IHcs Hd
      |f item n cs f2 rest f3 Hl Hu Hcs IHcs Hd Hrest IHrest];
    try pose proof (Hstep _ _ _ Hl) as Hs.
  - change (count_all []) with 0. lia.
  - change (count_all [item]) with (count_elements item + 0).
    rewrite (Hone _ _ _ Hl). lia.
  - change (count_all (item :: rest))
      with (count_elements item + count_all rest).
    rewrite (Hone _ _ _ Hl). apply dataset_run_pos in Hrest. lia.
  - change (count_all [add_children item cs])
      with (count_elements (add_children item cs) + 0).
    rewrite (Hnest _ _ _ cs Hl). apply dataset_run_pos in Hcs. lia.
  - change (count_all (add_children item cs :: rest))
      with (count_elements (add_children item cs) + count_all rest).
    rewrite (Hnest _ _ _ cs Hl).
    apply dataset_run_pos in Hcs. apply dataset_run_pos in Hrest. lia.
Qed.

(** X3. A tree returned by [read_dataset] never has more elements, at all
    depths together, than bytes were read for it. *)
Theorem no_more_elements_than_bytes
    (f : file) (ds : list DataElement) (f' : file) :
  read_dataset f = Ok (ds, f') ->
  count_all ds <= pos f' - pos f /\
  count_all ds <= List.length (remaining f).
Proof.
  intro H. apply read_dataset_run in H.
  pose proof (dataset_run_count _ _ _ H) as Hc.
  destruct (dataset_run_suffix _ _ _ H) as [c [Hs Hl]].
  split; [assumption|]. rewrite Hs, length_app. lia.
Qed.

Lemma no_more_elements_than_bytes_witness :
  read_dataset (File example_item 0)
  = Ok (example_item_tree, File example_item 36) /\
  count_all example_item_tree = 4 /\
  count_all example_item_tree <= 36 - 0 /\
  count_all example_item_tree
  <= List.length (remaining (File example_item 0)).
Proof.
  assert (H1 : read_dataset (File example_item 0)
               = Ok (example_item_tree, File example_item 36))
    by (vm_compute; reflexivity).
  split; [exact H1|]. split; [reflexivity|].
  exact (no_more_elements_than_bytes _ _ _ H1).
Defined.

Lemma dataset_run_delimiter_only_last f ds f' :
  dataset_run f ds f' -> delimiter_only_last ds.
Proof.
  unfold delimiter_only_last.
  induction 1 as
      [f Hr|f item n Hl Hu Hd|f item n rest f3 Hl Hu Hd Hrest IH
      |f item n cs f2 Hl Hu Hcs IHcs Hd
      |f item n cs f2 rest f3 Hl Hu Hcs IHcs Hd Hrest IHrest].
  - constructor.
  - constructor.
  - destruct rest as [|x rest]; [constructor|].
    change (removelast (item :: x :: rest))
      with (item :: removelast (x :: rest)).
    now constructor.
  - constructor.
  - destruct rest as [|x rest]; [constructor|].
    change (removelast (add_children item cs :: x :: rest))
      with (add_children item cs :: removelast (x :: rest)).
    now constructor.
Qed.

Lemma last_item_means_exhausted (l : list DataElement) (R : Prop) :
  closed_by_delimiter l \/ (no_delimiter l /\ R) ->
  forall init x,
    l = init ++ [x] -> class_of x = ItemDataElementClass -> R.
Proof.
  intros [[init' [d [-> [[Hd|Hd] _]]]]|[_ HR]] init x Hl Hx;
    [apply app_inj_tail in Hl as [_ <-]; congruence
    |apply app_inj_tail in Hl as [_ <-]; congruence
    |exact HR].
Qed.

Lemma exhausted_later (g' f' : file) :
  content g' = content f' -> pos g' <= pos f' ->
  remaining g' = [] -> remaining f' = [].
Proof.
  intros Hc Hp Hr. apply length_zero_iff_nil.
  apply (f_equal (@List.length byte)) in Hr. cbn [List.length] in Hr.
  rewrite length_remaining in *. rewrite Hc in Hr. lia.
Qed.

(** X4. In every sequence that [read_dataset] builds, the top-level one
    and the children of every element of the tree, an
    [ItemDelimitationElement] or a [SequenceDelimitationElement] can only
    be the last entry, and the sequence ends at nothing else: its last
    entry is a delimitation element, or it holds none and the file was
    read to its end. In particular an item element of undefined length
    does not end a sequence: where an [ItemDataElement] is the last
    entry, no byte of the file is left. *)
Theorem delimiters_only_end_a_sequence
    (f : file) (ds : list DataElement) (f' : file) :
  read_dataset f = Ok (ds, f') ->
  delimiter_only_last ds /\
  (closed_by_delimiter ds \/ (no_delimiter ds /\ remaining f' = [])) /\
  (forall init x,
     ds = init ++ [x] -> class_of x = ItemDataElementClass ->
     remaining f' = []) /\
  (forall e,
     occurs_in e ds ->
     delimiter_only_last (children e) /\
     (is_length_undefined e = true ->
      closed_by_delimiter (children e) \/
      (no_delimiter (children e) /\ remaining f' = [])) /\
     (forall init x,
        children e = init ++ [x] -> class_of x = ItemDataElementClass ->
        remaining f' = [])).
Proof.
  intro H. apply read_dataset_run in H.
  pose proof (dataset_run_closed _ _ _ H) as Htop.
  split; [now apply dataset_run_delimiter_only_last in H|].
  split; [exact Htop|].
  split; [exact (last_item_means_exhausted _ _ Htop)|].
  intros e Ho.
  destruct (occurs_in_run_nested _ _ _ _ H Ho)
    as [g [item [n [Hc [Hp [Hl [[Hu [-> _]]
                                |[Hu [He [g' [Hn Hp']]]]]]]]]]].
  - rewrite (item_layout_children _ _ _ Hl).
    split; [constructor|]. split; [congruence|].
    intros [|y init] x Hnil; discriminate Hnil.
  - assert (Hnested : closed_by_delimiter (children e) \/
                      (no_delimiter (children e) /\ remaining f' = [])).
    { destruct (dataset_run_closed _ _ _ Hn) as [Hcl|[Hno Hr]];
        [now left|right; split; [exact Hno|]].
      apply (exhausted_later g' f'); [|exact Hp'|exact Hr].
      rewrite (dataset_run_content _ _ _ Hn), content_advance, Hc.
      symmetry. exact (dataset_run_content _ _ _ H). }
    split; [now apply dataset_run_delimiter_only_last in Hn|].
    split; [intros _; exact Hnested|].
    exact (last_item_means_exhausted _ _ Hnested).
Qed.

Lemma delimiters_only_end_a_sequence_witness :
  read_dataset (File example_item 0)
  = Ok (example_item_tree, File example_item 36) /\
  delimiter_only_last example_item_tree /\
  (closed_by_delimiter example_item_tree \/
   (no_delimiter example_item_tree /\
    remaining (File example_item 36) = [])) /\
  (forall init x,
     example_item_tree = init ++ [x] -> class_of x = ItemDataElementClass ->
     remaining (File example_item 36) = []) /\
  (forall e,
     occurs_in e example_item_tree ->
     delimiter_only_last (children e) /\
     (is_length_undefined e = true ->
      closed_by_delimiter (children e) \/
      (no_delimiter (children e) /\
       remaining (File example_item 36) = [])) /\
     (forall init x,
        children e = init ++ [x] -> class_of x = ItemDataElementClass ->
        remaining (File example_item 36) = [])).
Proof.
  assert (H1 : read_dataset (File example_item 0)
               = Ok (example_item_tree, File example_item 36))
    by (vm_compute; reflexivity).
  split; [exact H1|].
  exact (delimiters_only_end_a_sequence _ _ _ H1).
Defined.

(** X5. [read_dataset_item] returns [None], and [read_dataset] the empty
    list, exactly when no byte is unread; the position is then left where
    it was. A file that has unread bytes gives at least one element, or
    an exception. *)
Theorem nothing_is_read_only_at_the_end :
  (forall f,
     remaining f = [] ->
     exists f', read_dataset_item f = Ok (None, f') /\
                read_dataset f = Ok ([], f') /\ pos f' = pos f) /\
  (forall f f',
     read_dataset_item f = Ok (None, f') -> remaining f = []) /\
  (forall f f',
     read_dataset f = Ok ([], f') -> remaining f = []).
Proof.
  split; [|split].
  - intros f Hr. exists (advance 4 f).
    assert (Hi : read_dataset_item f = Ok (None, advance 4 f))
      by now apply read_dataset_item_none.
    split; [exact Hi|]. split.
    + apply read_dataset_run. now apply run_end.
    + rewrite pos_advance, Hr. cbn [List.length]. lia.
  - intros f f' H. now apply read_dataset_item_none in H.
  - intros f f' H. apply read_dataset_run in H. now inversion H.
Qed.

Lemma nothing_is_read_only_at_the_end_witness :
  remaining (File example_ul 12) = [] /\
  exists f', read_dataset_item (File example_ul 12) = Ok (None, f') /\
             read_dataset (File example_ul 12) = Ok ([], f') /\
             pos f' = 12.
Proof.
  split; [reflexivity|].
  exact (proj1 nothing_is_read_only_at_the_end (File example_ul 12) eq_refl).
Defined.

(** ** Values and children *)

Lemma occurs_in_run_pos :
  forall f ds f' (e : DataElement),
  dataset_run f ds f' -> occurs_in e ds ->
  exists g item n,
    content g = content f /\ pos (advance n g) <= pos f' /\
    item_layout (remaining g) item n /\
    ((is_length_undefined item = false /\ e = item) \/
     (is_length_undefined item = true /\
      e = add_children item (children e))).
Proof.
  intros f ds f' e Hrun. revert e.
  induction Hrun as
      [f Hr|f item n Hl Hu Hd|f item n rest f3 Hl Hu Hd Hrest IH
      |f item n cs f2 Hl Hu Hcs IHcs Hd
      |f item n cs f2 rest f3 Hl Hu Hcs IHcs Hd Hrest IHrest];
    intros e Ho;
    try pose proof (item_layout_children _ _ _ Hl) as Hch;
    try pose proof (dataset_run_pos _ _ _ Hcs) as Hp;
    try pose proof (dataset_run_pos _ _ _ Hrest) as Hp';
    try pose proof (dataset_run_content _ _ _ Hcs) as Hcc;
    rewrite ?content_advance in *;
    [now apply occurs_in_nil in Ho|..];
    apply occurs_in_cons in Ho as [->|[Ho|Ho]];
    cbn [children add_children] in *; rewrite ?Hch in *; cbn [app] in *;
    try (now apply occurs_in_nil in Ho);
    try solve [exists f, item, n;
               split; [reflexivity|]; split; [lia|]; split; [assumption|];
               auto];
    try (destruct (IH _ Ho) as [g [it [m [Hc [Hle [Hli Hcase]]]]]];
         exists g, it, m;
         split; [congruence|]; split; [lia|]; split; assumption);
    try (destruct (IHcs _ Ho) as [g [it [m [Hc [Hle [Hli Hcase]]]]]];
         exists g, it, m;
         split; [congruence|]; split; [lia|]; split; assumption);
    try (destruct (IHrest _ Ho) as [g [it [m [Hc [Hle [Hli Hcase]]]]]];
         exists g, it, m;
         split; [congruence|]; split; [lia|]; split; assumption).
Qed.

Lemma item_layout_value r (item : DataElement) n :
  item_layout r item n ->
  (val_length item = None <-> val_data item = None) /\
  exists h,
    (h = 8 \/ h = 12)%N /\
    forall len, val_length item = Some len ->
                n = (h + len)%N /\
                val_data item = Some (take len (drop h r)).
Proof.
  intro Hl.
  inversion Hl as [c len Hr Hc Hlen|vr len Hr Hc Hd Hv Hlen
                   |vr len Hr Hc Hd Hv Hlen];
    unfold stored_length, payload, payload_length;
    cbn [val_length val_data];
    destruct (len =? UNDEFINED_LENGTH)%N; cbn [negb];
    (split; [split; congruence|]);
    first
      [ solve [exists 8%N; split; [tauto|];
               intros l Hl'; inversion Hl'; subst; split; reflexivity]
      | solve [exists 12%N; split; [tauto|];
               intros l Hl'; inversion Hl'; subst; split; reflexivity] ].
Qed.

(** X6. In a tree returned by [read_dataset] an element has a value
    exactly when its length is defined, and then it has no children; the
    value never has more bytes than the length says, and it has exactly
    that many whenever [read_dataset] returned before the end of the
    file. *)
Theorem value_or_children
    (f : file) (ds : list DataElement) (f' : file) (e : DataElement) :
  read_dataset f = Ok (ds, f') ->
  occurs_in e ds ->
  (val_length e = None <-> val_data e = None) /\
  (forall len,
     val_length e = Some len ->
     children e = [] /\
     exists d,
       val_data e = Some d /\
       (N.of_nat (List.length d) <= len)%N /\
       (remaining f' <> [] -> N.of_nat (List.length d) = len)).
Proof.
  intros Hrun Ho. apply read_dataset_run in Hrun.
  destruct (occurs_in_run_pos _ _ _ _ Hrun Ho)
    as [g [item [n [Hc [Hp [Hl Hcase]]]]]].
  destruct (item_layout_value _ _ _ Hl) as [Hiff [h [Hh Hv]]].
  assert (Hsame : val_length e = val_length item /\
                  val_data e = val_data item).
  { destruct Hcase as [[_ ->]|[_ ->]]; split; reflexivity. }
  destruct Hsame as [-> ->]. split; [exact Hiff|].
  intros len Hlen. destruct (Hv _ Hlen) as [Hn Hd]. split.
  - destruct Hcase as [[_ ->]|[Hu _]].
    + now apply item_layout_children in Hl.
    + unfold is_length_undefined in Hu. rewrite Hlen in Hu. discriminate.
  - exists (take len (drop h (remaining g))). split; [exact Hd|].
    rewrite length_take, length_drop. split; [lia|].
    intro Hleft.
    assert (Hlt : pos f' < List.length (content f')).
    { pose proof (length_remaining f') as Hlr.
      destruct (remaining f'); [congruence|].
      cbn [List.length] in Hlr. lia. }
    rewrite (dataset_run_content _ _ _ Hrun), <- Hc in Hlt.
    rewrite pos_advance, length_remaining in Hp.
    rewrite length_remaining. lia.
Qed.

Lemma value_or_children_witness :
  read_dataset (File example_item 0)
  = Ok (example_item_tree, File example_item 36) /\
  occurs_in example_ul_element example_item_tree /\
  remaining (File example_item 36) <> [] /\
  val_length example_ul_element = Some 4%N /\
  (val_length example_ul_element = None
   <-> val_data example_ul_element = None) /\
  children example_ul_element = [] /\
  exists d,
    val_data example_ul_element = Some d /\
    (N.of_nat (List.length d) <= 4)%N /\
    N.of_nat (List.length d) = 4%N.
Proof.
  assert (H1 : read_dataset (File example_item 0)
               = Ok (example_item_tree, File example_item 36))
    by (vm_compute; reflexivity).
  assert (H2 : occurs_in example_ul_element example_item_tree).
  { eapply occurs_below; [left; reflexivity|].
    apply occurs_here; left; reflexivity. }
  assert (H3 : remaining (File example_item 36) <> [])
    by (vm_compute; discriminate).
  destruct (value_or_children _ _ _ _ H1 H2) as [K1 K2].
  destruct (K2 4%N eq_refl) as [K3 [d [K4 [K5 K6]]]].
  split; [exact H1|]. split; [exact H2|]. split; [exact H3|].
  split; [reflexivity|]. split; [exact K1|]. split; [exact K3|].
  exists d. split; [exact K4|]. split; [exact K5|exact (K6 H3)].
Defined.

(** ** Exceptions *)

Lemma read_dataset_raise_aux (n : nat) :
  forall f, List.length (remaining f) < n ->
  forall x, read_dataset f = Raise x ->
  x = UnicodeDecodeError /\
  exists g,
    content g = content f /\ pos f <= pos g /\ remaining g <> [] /\
    reserved_class (tag_of (remaining g)) = None /\
    utf8_decode (take 2 (drop 4 (remaining g))) = None.
Proof.
  induction n as [|n IH]; intros f Hn x H; [lia|].
  rewrite read_dataset_unfold in H.
  destruct (read_dataset_item f) as [[[item|] f1]|y] eqn:Hi.
  - pose proof (read_dataset_item_progress _ _ _ Hi) as Hp.
    apply read_dataset_item_some in Hi as [m [Hl ->]].
    assert (Hpos : pos f <= pos (advance m f))
      by (rewrite pos_advance; lia).
    assert (Hlift : forall g0 y0,
               content g0 = content f -> pos f <= pos g0 ->
               List.length (remaining g0) < n ->
               read_dataset g0 = Raise y0 ->
               y0 = UnicodeDecodeError /\
               exists g,
                 content g = content f /\ pos f <= pos g /\
                 remaining g <> [] /\
                 reserved_class (tag_of (remaining g)) = None /\
                 utf8_decode (take 2 (drop 4 (remaining g))) = None).
    { intros g0 y0 Hc0 Hp0 Hn0 Hr0.
      destruct (IH g0 Hn0 y0 Hr0) as [-> [g [Hc [Hpg Hrest]]]].
      split; [reflexivity|]. exists g.
      split; [congruence|]. split; [lia|assumption]. }
    destruct (is_length_undefined item).
    + destruct (read_dataset (advance m f)) as [[cs f2]|y] eqn:H1.
      * pose proof (read_dataset_shrinks _ _ _ H1) as Hs.
        apply read_dataset_run in H1.
        pose proof (dataset_run_content _ _ _ H1) as Hc2.
        pose proof (dataset_run_pos _ _ _ H1) as Hp2.
        rewrite content_advance in Hc2.
        destruct (is_delimiter (add_children item cs)); [discriminate|].
        destruct (read_dataset f2) as [[rest f3]|y] eqn:H2; [discriminate|].
        inversion H; subst y.
        apply (Hlift f2 x); [assumption|lia|lia|assumption].
      * inversion H; subst y.
        apply (Hlift (advance m f) x);
          [apply content_advance|assumption|lia|assumption].
    + destruct (is_delimiter item); [discriminate|].
      destruct (read_dataset (advance m f)) as [[rest f3]|y] eqn:H2;
        [discriminate|].
      inversion H; subst y.
      apply (Hlift (advance m f) x);
        [apply content_advance|assumption|lia|assumption].
  - discriminate.
  - inversion H; subst y.
    apply read_dataset_item_raise in Hi as [-> [Hr [Hc Hd]]].
    split; [reflexivity|]. exists f. auto.
Qed.



(** ** [load] *)

Lemma load_unfold (fs : filesystem) (p : string) :
  load fs p =
  match fs p with
  | None => Raise FileNotFoundError
  | Some bytes =>
    if bytes_eqb (take 4 (drop 128 bytes)) (bytes_of_string "DICM") then
      match read_dataset (advance 132 (File bytes 0)) with
      | Ok (ds, _) => Ok (Build_DICOM p (take 128 bytes) ds)
      | Raise e => Raise e
      end
    else Raise (InvalidDICOMFileException "invalid magic header")
  end.
Proof.
  unfold load. destruct (fs p) as [bytes|]; [|reflexivity].
  cbv beta iota delta [bind read ret raise].
  rewrite remaining_advance, advance_advance.
  change (remaining (File bytes 0)) with bytes.
  change (128 + 4)%N with 132%N.
  destruct (bytes_eqb (take 4 (drop 128 bytes)) (bytes_of_string "DICM"));
    cbn [negb]; [|reflexivity].
  destruct (read_dataset (advance 132 (File bytes 0))) as [[ds f']|e];
    reflexivity.
Qed.

(** X8. [load] of a file with fewer than 132 bytes, the empty file
    included, raises [InvalidDICOMFileException]: the bytes read for the
    magic header are then too few to be [DICM]. A path with no file
    raises [FileNotFoundError]. *)
Theorem load_rejects_short_files (fs : filesystem) (p : string) :
  (forall bytes,
     fs p = Some bytes -> List.length bytes < 132 ->
     load fs p = Raise (InvalidDICOMFileException "invalid magic header")) /\
  (fs p = None -> load fs p = Raise FileNotFoundError).
Proof.
  rewrite load_unfold. split.
  - intros bytes -> Hlen.
    destruct (bytes_eqb (take 4 (drop 128 bytes)) (bytes_of_string "DICM"))
      eqn:E; [|reflexivity].
    apply bytes_eqb_eq in E.
    apply (f_equal (@List.length byte)) in E.
    rewrite length_take, length_drop in E. cbn in E. lia.
  - now intros ->.
Qed.

Lemma load_rejects_short_files_witness :
  let fs := fun p : string =>
              if String.eqb p "empty.dcm" then Some []
              else if String.eqb p "short.dcm"
                   then Some (repeat Byte.x00 128 ++ bytes_of_string "DIC")
                   else None in
  load fs "empty.dcm"
  = Raise (InvalidDICOMFileException "invalid magic header") /\
  load fs "short.dcm"
  = Raise (InvalidDICOMFileException "invalid magic header") /\
  load fs "none.dcm" = Raise FileNotFoundError.
Proof.
  intro fs.
  split; [|split].
  - apply (proj1 (load_rejects_short_files fs "empty.dcm") [] eq_refl).
    cbn; lia.
  - apply (proj1 (load_rejects_short_files fs "short.dcm") _ eq_refl).
    vm_compute; lia.
  - exact (proj2 (load_rejects_short_files fs "none.dcm") eq_refl).
Defined.

(** X9. [load] returns a [DICOM] value exactly when the file can be
    opened, its bytes 128 to 131 are [DICM] and [read_dataset] returns on
    the bytes from offset 132, and the value then holds the path, the
    first 128 bytes and that dataset. It raises
    [InvalidDICOMFileException] exactly when a file that was opened has
    other magic bytes, always with the message "invalid magic header",
    and [UnicodeDecodeError] exactly when the magic bytes are [DICM] and
    [read_dataset] raises it: a wrong header is never reported as a
    decoding error, nor the other way round. *)
Theorem load_outcomes (fs : filesystem) (p : string) :
  (forall d,
     load fs p = Ok d <->
     exists bytes ds f',
       fs p = Some bytes /\
       take 4 (drop 128 bytes) = bytes_of_string "DICM" /\
       read_dataset (File bytes 132) = Ok (ds, f') /\
       d = Build_DICOM p (take 128 bytes) ds) /\
  (forall m,
     load fs p = Raise (InvalidDICOMFileException m) <->
     exists bytes,
       fs p = Some bytes /\
       take 4 (drop 128 bytes) <> bytes_of_string "DICM" /\
       m = "invalid magic header"%string) /\
  (load fs p = Raise UnicodeDecodeError <->
   exists bytes,
     fs p = Some bytes /\
     take 4 (drop 128 bytes) = bytes_of_string "DICM" /\
     read_dataset (File bytes 132) = Raise UnicodeDecodeError).
Proof.
  rewrite load_unfold.
  destruct (fs p) as [bytes|].
  - assert (Hstart : take 4 (drop 128 bytes) = bytes_of_string "DICM" ->
                     advance 132 (File bytes 0) = File bytes 132).
    { intro Hm. apply (f_equal (@List.length byte)) in Hm.
      rewrite length_take, length_drop in Hm. cbn in Hm.
      rewrite advance_start; [reflexivity|]. lia. }
    destruct (bytes_eqb (take 4 (drop 128 bytes)) (bytes_of_string "DICM"))
      eqn:E.
    + apply bytes_eqb_eq in E. rewrite (Hstart E).
      destruct (read_dataset (File bytes 132)) as [[ds f']|e] eqn:Hr.
      * split; [|split].
        -- intro d. split.
           ++ intro H; inversion H; subst. exists bytes, ds, f'. auto.
           ++ intros [b [ds' [f2 [Hb [_ [Hr' ->]]]]]].
              inversion Hb; subst b. rewrite Hr in Hr'.
              inversion Hr'; subst. reflexivity.
        -- intro m. split; [discriminate|].
           intros [b [Hb [Hm _]]]. inversion Hb; subst b. contradiction.
        -- split; [discriminate|].
           intros [b [Hb [_ Hr']]]. inversion Hb; subst b.
           rewrite Hr in Hr'. discriminate.
      * split; [|split].
        -- intro d. split; [discriminate|].
           intros [b [ds' [f2 [Hb [_ [Hr' _]]]]]].
           inversion Hb; subst b. rewrite Hr in Hr'. discriminate.
        -- intro m. split.
           ++ intro H. inversion H; subst e.
              apply (read_dataset_raise_aux
                       (S (List.length (remaining (File bytes 132)))))
                in Hr; [|lia].
              destruct Hr as [Hr _]. discriminate Hr.
           ++ intros [b [Hb [Hm _]]]. inversion Hb; subst b. contradiction.
        -- split.
           ++ intro H. inversion H; subst e. exists bytes. auto.
           ++ intros [b [Hb [_ Hr']]]. inversion Hb; subst b.
              rewrite Hr in Hr'. inversion Hr'. reflexivity.
    + assert (Hne : take 4 (drop 128 bytes) <> bytes_of_string "DICM").
      { intro Hm. apply bytes_eqb_eq in Hm. congruence. }
      split; [|split].
      * intro d. split; [discriminate|].
        intros [b [ds' [f2 [Hb [Hm _]]]]]. inversion Hb; subst b.
        contradiction.
      * intro m. split.
        -- intro H; inversion H; subst. exists bytes. auto.
        -- intros [b [Hb [_ ->]]]. reflexivity.
      * split; [discriminate|].
        intros [b [Hb [Hm _]]]. inversion Hb; subst b. contradiction.
  - split; [|split].
    + intro d. split; [discriminate|].
      intros [b [ds' [f2 [Hb _]]]]. discriminate.
    + intro m. split; [discriminate|]. intros [b [Hb _]]. discriminate.
    + split; [discriminate|]. intros [b [Hb _]]. discriminate.
Qed.

Lemma load_outcomes_witness :
  let fs := fun p : string =>
              if String.eqb p "a.dcm" then Some example_file
              else if String.eqb p "b.dcm" then Some example_bad_magic_file
              else if String.eqb p "c.dcm" then Some example_bad_vr_file
              else None in
  load fs "a.dcm"
  = Ok (Build_DICOM "a.dcm" (take 128 example_file) [example_ul_element]) /\
  load fs "b.dcm"
  = Raise (InvalidDICOMFileException "invalid magic header") /\
  load fs "c.dcm" = Raise UnicodeDecodeError.
Proof.
  intro fs.
  split; [|split].
  - apply (proj1 (load_outcomes fs "a.dcm")).
    exists example_file, [example_ul_element], (File example_file 144).
    split; [reflexivity|]. split; [vm_compute; reflexivity|].
    split; [vm_compute; reflexivity|reflexivity].
  - apply (proj1 (proj2 (load_outcomes fs "b.dcm"))).
    exists example_bad_magic_file.
    split; [reflexivity|]. split; [vm_compute; discriminate|reflexivity].
  - apply (proj2 (proj2 (load_outcomes fs "c.dcm"))).
    exists example_bad_vr_file.
    split; [reflexivity|]. split; vm_compute; reflexivity.
Defined.

(** ** Ranges of the fields *)

Lemma int_from_bytes_little_lt (b : list byte) (k : nat) :
  List.length b <= k ->
  (int_from_bytes_little b < 256 ^ N.of_nat k)%N.
Proof.
  intro H. pose proof (int_from_bytes_little_bound b) as Hb.
  assert (Hp : (256 ^ N.of_nat (List.length b) <= 256 ^ N.of_nat k)%N)
    by (apply N.pow_le_mono_r; lia).
  lia.
Qed.

Lemma tag_of_range (r : list byte) :
  (group (tag_of r) < 0x10000)%N /\ (elem (tag_of r) < 0x10000)%N.
Proof.
  unfold tag_of; cbn [group elem].
  split; apply (int_from_bytes_little_lt _ 2); rewrite length_firstn; lia.
Qed.

Lemma utf8_decode_short (b : list byte) (s : str) :
  List.length b <= 2 -> utf8_decode b = Some s ->
  List.length s <= List.length b.
Proof.
  destruct b as [|b0 [|b1 [|b2 b]]]; cbn [List.length]; intros Hlen H;
    [inversion H; cbn; lia| | |lia];
    cbn [utf8_decode option_map] in H;
    repeat match type of H with
           | context [if ?c then _ else _] => destruct c
           end;
    cbn [option_map] in H; inversion H; cbn [List.length]; lia.
Qed.

Lemma item_layout_ranges r (item : DataElement) n :
  item_layout r item n ->
  (group (tag item) < 0x10000)%N /\ (elem (tag item) < 0x10000)%N /\
  (forall len, val_length item = Some len -> (len < 0xffffffff)%N) /\
  (forall vr, val_repr item = Some vr ->
              class_of item = DataElementClass /\ List.length vr <= 2) /\
  (val_repr item = None <-> class_of item <> DataElementClass).
Proof.
  assert (Hlen : forall b len l,
             List.length b <= 4 -> len = int_from_bytes_little b ->
             stored_length len = Some l -> (l < 0xffffffff)%N).
  { intros b len l Hb -> Hs.
    pose proof (int_from_bytes_little_lt b 4 Hb) as Hlt.
    change (256 ^ N.of_nat 4)%N with 4294967296%N in Hlt.
    unfold stored_length in Hs.
    destruct (N.eqb_spec (int_from_bytes_little b) UNDEFINED_LENGTH)
      as [He|Hne]; cbn [negb] in Hs; [discriminate|].
    inversion Hs; subst l. unfold UNDEFINED_LENGTH in Hne. lia. }
  intro Hl. pose proof (tag_of_range r) as [Hg He].
  inversion Hl as [c len Hr Hc Hlen'|vr len Hr Hc Hd Hv Hlen'
                   |vr len Hr Hc Hd Hv Hlen'];
    cbn [tag val_length val_repr class_of];
    (split; [assumption|]); (split; [assumption|]); split.
  - intros l Hs. eapply Hlen; [|exact Hlen'|exact Hs].
    rewrite length_take; lia.
  - split; [discriminate|].
    apply reserved_class_tag in Hc as [Hne _]. tauto.
  - intros l Hs. eapply Hlen; [|exact Hlen'|exact Hs].
    rewrite length_take; lia.
  - split.
    + intros vr' Hvr. inversion Hvr; subst vr'. split; [reflexivity|].
      apply utf8_decode_short in Hd; rewrite length_take in *; lia.
    + split; [discriminate|congruence].
  - intros l Hs. eapply Hlen; [|exact Hlen'|exact Hs].
    rewrite length_take; lia.
  - split.
    + intros vr' Hvr. inversion Hvr; subst vr'. split; [reflexivity|].
      apply utf8_decode_short in Hd; rewrite length_take in *; lia.
    + split; [discriminate|congruence].
Qed.

(** X10. Every element of a tree returned by [read_dataset] has a tag
    whose group and element numbers are below 0x10000 and, when its
    length is defined, a length below 0xFFFFFFFF. Its [val_repr] is
    [None] exactly for the three subclasses; for a plain [DataElement]
    it is a string of at most two characters. *)
Theorem fields_are_in_range
    (f : file) (ds : list DataElement) (f' : file) (e : DataElement) :
  read_dataset f = Ok (ds, f') ->
  occurs_in e ds ->
  (group (tag e) < 0x10000)%N /\ (elem (tag e) < 0x10000)%N /\
  (forall len, val_length e = Some len -> (len < 0xffffffff)%N) /\
  (forall vr, val_repr e = Some vr ->
              class_of e = DataElementClass /\ List.length vr <= 2) /\
  (val_repr e = None <-> class_of e <> DataElementClass).
Proof.
  intros Hrun Ho. apply read_dataset_run in Hrun.
  destruct (occurs_in_run_pos _ _ _ _ Hrun Ho)
    as [g [item [n [_ [_ [Hl [[_ ->]|[_ ->]]]]]]]];
    cbn [tag val_length val_repr class_of add_children];
    exact (item_layout_ranges _ _ _ Hl).
Qed.

Lemma fields_are_in_range_witness :
  read_dataset (File example_item 0)
  = Ok (example_item_tree, File example_item 36) /\
  occurs_in example_ul_element example_item_tree /\
  (group (tag example_ul_element) < 0x10000)%N /\
  (elem (tag example_ul_element) < 0x10000)%N /\
  (forall len, val_length example_ul_element = Some len ->
               (len < 0xffffffff)%N) /\
  (forall vr, val_repr example_ul_element = Some vr ->
              class_of example_ul_element = DataElementClass /\
              List.length vr <= 2) /\
  (val_repr example_ul_element = None
   <-> class_of example_ul_element <> DataElementClass).
Proof.
  assert (H1 : read_dataset (File example_item 0)
               = Ok (example_item_tree, File example_item 36))
    by (vm_compute; reflexivity).
  assert (H2 : occurs_in example_ul_element example_item_tree).
  { eapply occurs_below; [left; reflexivity|].
    apply occurs_here; left; reflexivity. }
  split; [exact H1|]. split; [exact H2|].
  exact (fields_are_in_range _ _ _ _ H1 H2).
Defined.

(* ================================================================== *)
(** * The XML dump and the string representations *)

Lemma DataElement_forall_ind (P : DataElement -> Prop) :
  (forall c t vr len d cs, Forall P cs -> P (Element c t vr len d cs)) ->
  forall e, P e.
Proof.
  intro H. fix IH 1. intros [c t vr len d cs]. apply H.
  induction cs as [|x cs IHcs]; constructor; [apply IH|exact IHcs].
Qed.

Lemma dump_children (cs : list DataElement) :
  Forall (fun c => forall parent,
            dump_element_xml_tree c parent = xml_append parent (xml_of c))
         cs ->
  forall node,
    fold_left (fun el child => dump_element_xml_tree child el) cs node
    = XmlElement (xtag node) (attrib node) (text node)
                 (subelements node ++ map xml_of cs).
Proof.
  induction 1 as [|c cs Hc Hcs IH]; intro node; cbn [fold_left map].
  - rewrite app_nil_r. now destruct node.
  - rewrite IH, Hc. unfold xml_append; cbn [xtag attrib text subelements].
    now rewrite <- app_assoc.
Qed.

Lemma dump_element_xml_tree_eq (item : DataElement) :
  forall parent,
    dump_element_xml_tree item parent = xml_append parent (xml_of item).
Proof.
  induction item as [c t vr len d cs IH] using DataElement_forall_ind.
  intro parent. cbn [dump_element_xml_tree xml_of].
  rewrite (dump_children cs IH). reflexivity.
Qed.

Lemma xml_count_of (item : DataElement) :
  xml_count (xml_of item) = count_elements item.
Proof.
  induction item as [c t vr len d cs IH] using DataElement_forall_ind.
  cbn [xml_of xml_count count_elements]. f_equal. rewrite map_map.
  f_equal. induction IH as [|x cs Hx Hcs IHcs]; cbn [map]; congruence.
Qed.

(** X11. [dump_element_xml_tree] adds exactly one sub-element to
    [parent], after the ones that are there, and changes nothing else of
    it. The new element has the class name of the item as its tag, the
    attributes group, elem, vr and vl in this order, the text of the
    value, and one sub-element for each child of the item, in order and
    built in the same way; it has as many elements as the item has,
    children of all depths included. *)
Theorem dump_adds_one_subelement (item : DataElement) (parent : xml) :
  let parent' := dump_element_xml_tree item parent in
  xtag parent' = xtag parent /\
  attrib parent' = attrib parent /\
  text parent' = text parent /\
  subelements parent' = subelements parent ++ [xml_of item] /\
  xtag (xml_of item) = class_name (class_of item) /\
  attrib (xml_of item)
  = [(str_of_string "group", py_hex (group (tag item)));
     (str_of_string "elem", py_hex (elem (tag item)));
     (str_of_string "vr", py_str_opt_str (val_repr item));
     (str_of_string "vl", py_str_opt_int (val_length item))] /\
  text (xml_of item) = Some (py_str_opt_bytes (val_data item)) /\
  subelements (xml_of item) = map xml_of (children item) /\
  xml_count (xml_of item) = count_elements item.
Proof.
  cbv zeta. rewrite dump_element_xml_tree_eq, xml_count_of.
  destruct item; repeat split; reflexivity.
Qed.

Lemma dump_xml_root_eq (dicom : DICOM) :
  dump_xml_root dicom
  = XmlElement (str_of_string "DICOM") []
               (Some (py_str_bytes (preamble dicom)))
               (map xml_of (dataset dicom)).
Proof.
  unfold dump_xml_root.
  rewrite (dump_children (dataset dicom)); [reflexivity|].
  apply Forall_forall. intros c _. apply dump_element_xml_tree_eq.
Qed.

(** X12. The element that [dump_xml] builds and serialises has the tag
    DICOM, no attributes, the text of the preamble and exactly one
    sub-element for each entry of the dataset, in the order of the
    dataset, each built as [dump_element_xml_tree] builds it; in all it
    has one element more than the dataset has elements at all depths. *)
Theorem dump_xml_root_mirrors_dataset (dicom : DICOM) :
  xtag (dump_xml_root dicom) = str_of_string "DICOM" /\
  attrib (dump_xml_root dicom) = [] /\
  text (dump_xml_root dicom) = Some (py_str_bytes (preamble dicom)) /\
  subelements (dump_xml_root dicom) = map xml_of (dataset dicom) /\
  List.length (subelements (dump_xml_root dicom))
  = List.length (dataset dicom) /\
  xml_count (dump_xml_root dicom) = S (count_all (dataset dicom)).
Proof.
  rewrite dump_xml_root_eq. cbn [xtag attrib text subelements xml_count].
  repeat split.
  - apply length_map.
  - f_equal. unfold count_all. rewrite map_map. f_equal.
    apply map_ext. intro e. apply xml_count_of.
Qed.

(** ** The text of a value *)

Lemma printableb_spec (s : str) : printableb s = true <-> printable s.
Proof.
  unfold printableb, printable. rewrite forallb_forall, Forall_forall.
  split; intros H c Hc; specialize (H c Hc).
  - apply andb_true_iff in H as [H1 H2].
    apply N.leb_le in H1. apply N.leb_le in H2. lia.
  - apply andb_true_iff. split; apply N.leb_le; lia.
Qed.

Lemma bytes_quote_cases (b : list byte) :
  bytes_quote b = 34%N \/ bytes_quote b = 39%N.
Proof.
  unfold bytes_quote.
  match goal with
  | |- context [if ?c then _ else _] => destruct c
  end; auto.
Qed.

Lemma bytes_escape_printable (q : N) (x : byte) :
  q = 34%N \/ q = 39%N -> printableb (bytes_escape q x) = true.
Proof. intros [->| ->]; destruct x; reflexivity. Qed.

Lemma str_None_printable : printable str_None.
Proof. apply printableb_spec. reflexivity. Qed.

Lemma py_str_bytes_printable (b : list byte) : printable (py_str_bytes b).
Proof.
  unfold py_str_bytes, printable.
  destruct (bytes_quote_cases b) as [Hq|Hq]; rewrite Hq;
    (apply Forall_app; split; [repeat constructor; lia|]);
    (apply Forall_app; split; [|repeat constructor; lia]);
    apply Forall_flat_map, Forall_forall; intros x _;
    apply printableb_spec, bytes_escape_printable; auto.
Qed.

(** X13. The text that [str] gives for a [bytes] value, and so the text
    of every element that [dump_element_xml_tree] and [dump_xml] build,
    holds printable ASCII characters only (codes 32 to 126), whatever the
    bytes are. *)
Theorem xml_text_is_printable :
  (forall b, printable (py_str_bytes b)) /\
  (forall (item : DataElement) (parent : xml),
   exists node s,
     subelements (dump_element_xml_tree item parent)
     = subelements parent ++ [node] /\
     text node = Some s /\ printable s) /\
  (forall dicom, exists s,
     text (dump_xml_root dicom) = Some s /\ printable s).
Proof.
  split; [exact py_str_bytes_printable|]. split.
  - intros item parent.
    exists (xml_of item), (py_str_opt_bytes (val_data item)).
    rewrite dump_element_xml_tree_eq. destruct item as [c t vr len d cs].
    split; [reflexivity|]. split; [reflexivity|].
    destruct d; [apply py_str_bytes_printable|apply str_None_printable].
  - intro dicom. exists (py_str_bytes (preamble dicom)).
    rewrite dump_xml_root_eq. split; [reflexivity|].
    apply py_str_bytes_printable.
Qed.

Lemma bytes_unescape_escape (q : N) (x : byte) (r : str) :
  q = 34%N \/ q = 39%N ->
  bytes_unescape q (bytes_escape q x ++ r) = Some (x, r).
Proof. intros [->| ->]; destruct x; reflexivity. Qed.

Lemma escaped_bytes_inj (q : N) :
  q = 34%N \/ q = 39%N ->
  forall b1 b2,
    flat_map (bytes_escape q) b1 = flat_map (bytes_escape q) b2 -> b1 = b2.
Proof.
  intros Hq b1.
  induction b1 as [|x b1 IH]; intros [|y b2] H; cbn [flat_map] in H.
  - reflexivity.
  - apply (f_equal (bytes_unescape q)) in H.
    rewrite (bytes_unescape_escape q y _ Hq) in H. discriminate.
  - apply (f_equal (bytes_unescape q)) in H.
    rewrite (bytes_unescape_escape q x _ Hq) in H. discriminate.
  - apply (f_equal (bytes_unescape q)) in H.
    rewrite !(bytes_unescape_escape q _ _ Hq) in H.
    inversion H; subst. f_equal. now apply IH.
Qed.

Lemma py_str_bytes_inj (b1 b2 : list byte) :
  py_str_bytes b1 = py_str_bytes b2 -> b1 = b2.
Proof.
  unfold py_str_bytes. intro H. cbn [app] in H. injection H as Hq Hbody.
  rewrite <- Hq in Hbody. apply app_inv_tail in Hbody.
  exact (escaped_bytes_inj _ (bytes_quote_cases b1) _ _ Hbody).
Qed.

(** X14. The text that [str] gives for a [bytes] value determines the
    bytes: two different values never give the same text, and no value
    gives the text [None] that stands for a missing value. *)
Theorem value_text_is_injective :
  (forall b1 b2, py_str_bytes b1 = py_str_bytes b2 -> b1 = b2) /\
  (forall o1 o2, py_str_opt_bytes o1 = py_str_opt_bytes o2 -> o1 = o2).
Proof.
  split; [exact py_str_bytes_inj|].
  intros [b1|] [b2|] H; cbn [py_str_opt_bytes] in H.
  - f_equal. now apply py_str_bytes_inj.
  - discriminate H.
  - discriminate H.
  - reflexivity.
Qed.

Lemma value_text_is_injective_witness :
  py_str_bytes (octets [0x27; 0x00]) = py_str_bytes (octets [0x27; 0x00]) /\
  py_str_bytes (octets [0x27; 0x00]) = [98; 34; 39; 92; 120; 48; 48; 34]%N /\
  octets [0x27; 0x00] = octets [0x27; 0x00].
Proof.
  split; [reflexivity|]. split; [reflexivity|].
  exact (proj1 value_text_is_injective _ _ eq_refl).
Defined.

(** ** The XML tree determines the dataset *)

Lemma str_of_string_inj (s1 s2 : string) :
  str_of_string s1 = str_of_string s2 -> s1 = s2.
Proof.
  unfold str_of_string. intro H.
  rewrite <- (string_of_list_ascii_of_string s1).
  rewrite <- (string_of_list_ascii_of_string s2). f_equal.
  revert H. generalize (list_ascii_of_string s2) as l2.
  induction (list_ascii_of_string s1) as [|a l1 IH]; intros [|b l2] H;
    cbn [map] in H; try discriminate; [reflexivity|].
  injection H as Ha Hl. f_equal; [|now apply IH].
  rewrite <- (ascii_N_embedding a), <- (ascii_N_embedding b). now f_equal.
Qed.

Lemma py_hex_inj (n m : N) : py_hex n = py_hex m -> n = m.
Proof.
  intro H. apply str_of_string_inj in H.
  rewrite <- (HexString.to_N_of_N n), <- (HexString.to_N_of_N m).
  now f_equal.
Qed.

Lemma to_uint_nonnil (n : N) : N.to_uint n <> Decimal.Nil.
Proof.
  destruct n as [|p]; [discriminate|].
  apply DecimalPos.Unsigned.to_uint_nonnil.
Qed.

Lemma py_str_int_inj (n m : N) : py_str_int n = py_str_int m -> n = m.
Proof.
  intro H. apply str_of_string_inj in H.
  apply DecimalN.Unsigned.to_uint_inj.
  apply (f_equal DecimalString.NilZero.uint_of_string) in H.
  rewrite !DecimalString.NilZero.usu in H by apply to_uint_nonnil.
  now injection H.
Qed.

Lemma py_str_int_not_None (n : N) : py_str_int n <> str_None.
Proof.
  intro H. apply str_of_string_inj in H.
  apply (f_equal DecimalString.NilZero.uint_of_string) in H.
  rewrite DecimalString.NilZero.usu in H by apply to_uint_nonnil.
  discriminate H.
Qed.

Lemma py_str_opt_int_inj (o1 o2 : option N) :
  py_str_opt_int o1 = py_str_opt_int o2 -> o1 = o2.
Proof.
  destruct o1 as [n|], o2 as [m|]; cbn [py_str_opt_int]; intro H.
  - f_equal. now apply py_str_int_inj.
  - now apply py_str_int_not_None in H.
  - symmetry in H. now apply py_str_int_not_None in H.
  - reflexivity.
Qed.

Lemma py_str_opt_bytes_inj (o1 o2 : option (list byte)) :
  py_str_opt_bytes o1 = py_str_opt_bytes o2 -> o1 = o2.
Proof.
  destruct o1 as [b1|], o2 as [b2|]; cbn [py_str_opt_bytes]; intro H.
  - f_equal. now apply py_str_bytes_inj.
  - discriminate H.
  - discriminate H.
  - reflexivity.
Qed.

Lemma class_name_inj (c1 c2 : element_class) :
  class_name c1 = class_name c2 -> c1 = c2.
Proof.
  unfold class_name. intro H. apply str_of_string_inj in H.
  destruct c1, c2; try reflexivity; discriminate H.
Qed.

Lemma xml_of_inj (e1 : DataElement) :
  forall e2,
    vr_never_None [e1] -> vr_never_None [e2] ->
    xml_of e1 = xml_of e2 -> e1 = e2.
Proof.
  induction e1 as [c1 t1 vr1 len1 d1 cs1 IH] using DataElement_forall_ind.
  intros [c2 [g2 el2] vr2 len2 d2 cs2] Hok1 Hok2 H.
  destruct t1 as [g1 el1]. cbn [xml_of group elem] in H.
  injection H as Hc Hg He Hvr Hvl Hd Hcs.
  apply class_name_inj in Hc. apply py_hex_inj in Hg. apply py_hex_inj in He.
  apply py_str_opt_int_inj in Hvl. apply py_str_opt_bytes_inj in Hd.
  assert (Hvr' : vr1 = vr2).
  { assert (H1 := Hok1 _ ltac:(apply occurs_here; left; reflexivity)).
    assert (H2 := Hok2 _ ltac:(apply occurs_here; left; reflexivity)).
    cbn [val_repr] in H1, H2.
    destruct vr1 as [v1|], vr2 as [v2|]; cbn [py_str_opt_str] in Hvr;
      congruence. }
  assert (Hkids : cs1 = cs2).
  { assert (K1 : vr_never_None cs1).
    { intros x Hx. apply Hok1.
      eapply occurs_below; [left; reflexivity|exact Hx]. }
    assert (K2 : vr_never_None cs2).
    { intros x Hx. apply Hok2.
      eapply occurs_below; [left; reflexivity|exact Hx]. }
    clear Hok1 Hok2. revert cs2 Hcs K2.
    induction IH as [|x cs1 Hx Hrest IHrest]; intros [|y cs2] Hcs K2;
      cbn [map] in Hcs; try discriminate; [reflexivity|].
    injection Hcs as Hxy Hcs.
    assert (Sub : forall (z : DataElement) l,
               vr_never_None (z :: l) ->
               vr_never_None [z] /\ vr_never_None l).
    { intros z l K. split; intros w Hw; apply K; apply occurs_in_cons.
      - apply occurs_in_cons in Hw as [->|[Hw|Hw]]; auto.
        now apply occurs_in_nil in Hw.
      - auto. }
    destruct (Sub _ _ K1) as [K1x K1r]. destruct (Sub _ _ K2) as [K2y K2r].
    f_equal; [now apply Hx|now apply IHrest]. }
  congruence.
Qed.

Lemma xml_of_forest_inj (l1 l2 : list DataElement) :
  vr_never_None l1 -> vr_never_None l2 ->
  map xml_of l1 = map xml_of l2 -> l1 = l2.
Proof.
  intros K1 K2 H.
  assert (E : xml_of (Element DataElementClass (Tag 0 0) None None None l1)
              = xml_of (Element DataElementClass (Tag 0 0) None None None l2))
    by (cbn [xml_of]; now rewrite H).
  apply xml_of_inj in E; [now injection E| |];
    intros x Hx; apply occurs_in_cons in Hx as [->|[Hx|Hx]];
    cbn [val_repr children] in *; try discriminate; auto;
    now apply occurs_in_nil in Hx.
Qed.

Lemma dump_xml_root_inj (d1 d2 : DICOM) :
  vr_never_None (dataset d1) -> vr_never_None (dataset d2) ->
  dump_xml_root d1 = dump_xml_root d2 ->
  preamble d1 = preamble d2 /\ dataset d1 = dataset d2.
Proof.
  intros K1 K2 H. rewrite !dump_xml_root_eq in H.
  remember (py_str_bytes (preamble d1)) as s1 eqn:E1.
  remember (py_str_bytes (preamble d2)) as s2 eqn:E2.
  injection H as Hp Hd. subst s1 s2.
  split; [apply py_str_bytes_inj|apply xml_of_forest_inj]; assumption.
Qed.

Lemma dataset_run_vr_never_None f ds f' :
  dataset_run f ds f' -> vr_never_None ds.
Proof.
  intros Hrun x Hx.
  destruct (occurs_in_run_pos _ _ _ _ Hrun Hx)
    as [g [item [n [_ [_ [Hl [[_ ->]|[_ ->]]]]]]]];
    cbn [val_repr add_children];
    destruct (item_layout_ranges _ _ _ Hl) as [_ [_ [_ [Hvr _]]]];
    intro E; apply Hvr in E as [_ E]; cbn in E; lia.
Qed.

(** X15. The element that [dump_xml] builds determines the preamble and
    the dataset, as long as no element of the dataset has the string
    [None] as its VR: two [DICOM] values that differ in the preamble or
    anywhere in the tree of the dataset (class, tag, VR, length, value or
    children of an element) give different XML trees. *)
Theorem xml_tree_determines_dataset (d1 d2 : DICOM) :
  vr_never_None (dataset d1) -> vr_never_None (dataset d2) ->
  dump_xml_root d1 = dump_xml_root d2 ->
  preamble d1 = preamble d2 /\ dataset d1 = dataset d2.
Proof. exact (dump_xml_root_inj d1 d2). Qed.

Lemma xml_tree_determines_dataset_witness :
  let d1 := Build_DICOM "a.dcm" [] [example_sequence_element] in
  let d2 := Build_DICOM "b.dcm" [] [example_sequence_element] in
  vr_never_None (dataset d1) /\ vr_never_None (dataset d2) /\
  dump_xml_root d1 = dump_xml_root d2 /\
  preamble d1 = preamble d2 /\ dataset d1 = dataset d2.
Proof.
  intros d1 d2.
  assert (H : vr_never_None [example_sequence_element]).
  { intros x Hx. apply occurs_in_cons in Hx as [->|[Hx|Hx]].
    - discriminate.
    - apply occurs_in_cons in Hx as [->|[Hx|Hx]];
        [discriminate|now apply occurs_in_nil in Hx
        |now apply occurs_in_nil in Hx].
    - now apply occurs_in_nil in Hx. }
  split; [exact H|]. split; [exact H|]. split; [reflexivity|].
  exact (xml_tree_determines_dataset d1 d2 H H eq_refl).
Defined.

(** X16. No information of a file is lost between [load] and the element
    that [dump_xml] builds: two loaded files whose XML trees are equal
    have the same preamble and the same dataset. *)
Theorem load_then_dump_is_lossless
    (fs1 fs2 : filesystem) (p1 p2 : string) (d1 d2 : DICOM) :
  load fs1 p1 = Ok d1 -> load fs2 p2 = Ok d2 ->
  dump_xml_root d1 = dump_xml_root d2 ->
  preamble d1 = preamble d2 /\ dataset d1 = dataset d2.
Proof.
  assert (Hload : forall fs p d, load fs p = Ok d ->
                                 vr_never_None (dataset d)).
  { intros fs p d H. rewrite load_unfold in H.
    destruct (fs p) as [bytes|]; [|discriminate].
    destruct (bytes_eqb _ _); [|discriminate].
    destruct (read_dataset _) as [[ds f']|e] eqn:Hr; [|discriminate].
    injection H as <-. cbn [dataset].
    apply read_dataset_run in Hr.
    now apply dataset_run_vr_never_None in Hr. }
  intros H1 H2. apply dump_xml_root_inj; eauto.
Qed.

Lemma load_then_dump_is_lossless_witness :
  let fs := fun _ : string => Some example_file in
  let d := Build_DICOM "a.dcm" (take 128 example_file) [example_ul_element] in
  let d' := Build_DICOM "b.dcm" (take 128 example_file) [example_ul_element] in
  load fs "a.dcm" = Ok d /\ load fs "b.dcm" = Ok d' /\
  dump_xml_root d = dump_xml_root d' /\
  preamble d = preamble d' /\ dataset d = dataset d'.
Proof.
  intros fs d d'.
  assert (H1 : load fs "a.dcm" = Ok d) by (vm_compute; reflexivity).
  assert (H2 : load fs "b.dcm" = Ok d') by (vm_compute; reflexivity).
  split; [exact H1|]. split; [exact H2|]. split; [reflexivity|].
  exact (load_then_dump_is_lossless fs fs _ _ d d' H1 H2 eq_refl).
Defined.

(** ** [__repr__] *)

Lemma vl_text_zero (len : option N) :
  vl_text (match len with Some 0%N => None | _ => len end) = vl_text len.
Proof. destruct len as [[|p]|]; reflexivity. Qed.

(** X17. [__repr__] of a data element, of any of the four classes, shows
    a length of 0 as [UNDEFINED], the same as an undefined length, and
    shows nothing of the value: the text does not change when, at any
    depth, lengths of 0 are replaced by undefined ones and values are
    dropped. *)
Theorem repr_hides_zero_length :
  (forall e, DataElement_repr (forget_value e) = DataElement_repr e) /\
  (forall c t vr d d' cs,
     DataElement_repr (Element c t vr (Some 0%N) d cs)
     = DataElement_repr (Element c t vr None d' cs)).
Proof.
  split.
  - intro e.
    induction e as [c t vr len d cs IH] using DataElement_forall_ind.
    cbn [forget_value DataElement_repr]. rewrite vl_text_zero, map_map.
    assert (Hk : map (fun x => DataElement_repr (forget_value x)) cs
                 = map DataElement_repr cs).
    { induction IH as [|x cs Hx Hcs IHcs]; cbn [map]; congruence. }
    rewrite Hk. reflexivity.
  - intros c t vr d d' cs. reflexivity.
Qed.

Lemma repr_hides_zero_length_witness :
  map DataElement_repr (map forget_value example_pair)
  = map DataElement_repr example_pair /\
  DataElement_repr
    (DataElement_init (Tag 0x0008 0x0005) (str_of_string "CS") 0 (Some []) [])
  = str_of_string "DataElement(Tag(0x8, 0x5), vr=CS, vl=UNDEFINED, children=[])".
Proof.
  split; [|reflexivity].
  unfold example_pair; cbn [map].
  now rewrite !(proj1 repr_hides_zero_length).
Defined.
